(** * Household expenditure analysis (analysis.py)

    A shallow embedding of the three stages of [analysis.py]:
    [sanity_check], [compute_national_share] and
    [compute_lorenz_curve_and_gini], with the properties its specification
    states about them.

    Numbers.  The numeric columns of the data frames are float64.  The
    stages are written once, over an interface [Number] of the operations
    the script uses; its instance [float] is the kernel's binary64
    arithmetic with round-to-nearest-even, which runs the script on concrete
    tables bit for bit.  What holds whatever the arithmetic is proved for
    every instance of the interface; what depends on the order of the
    numbers or on NaN and the infinities is proved from a few laws
    ([NumberLaws]), which are then proved of binary64.

    Tables.  A data frame is the list of its rows, a row a record of the
    columns the script reads.  A missing cell (NaN) is [None] in an
    identifier column, [CodeNaN] in the category-code column, and the NaN of
    the number type in a numeric column.

    Effects.  Printing, the files written under [output/] and the three
    loaded tables make up the [world] each stage transforms. *)

From Stdlib Require Import ZArith Lia List String Ascii.
From Stdlib Require Import Floats Uint63 DecimalString.
From Stdlib Require Import Sorting.Permutation Sorting.Sorted.
From Stdlib Require OrderedTypeEx DecimalZ.
From stdpp Require Import gmap sorting.
Import ListNotations.

(** ** The numbers of the script *)

Declare Scope num_scope.
Delimit Scope num_scope with num.

Class Number (A : Type) := {
  of_Z : Z -> A;           (* an integer literal or an int64 cell *)
  nadd : A -> A -> A;
  nsub : A -> A -> A;
  nmul : A -> A -> A;
  ndiv : A -> A -> A;      (* true division: x/0 is an infinity or NaN *)
  nabs : A -> A;           (* np.abs *)
  nltb : A -> A -> bool;   (* x < y; false as soon as one side is NaN *)
  isnan : A -> bool;       (* isnull on a numeric cell *)
  rint : A -> A;           (* np.rint: to the nearest integer, ties to even *)
  infinity : A             (* np.inf *)
}.

Infix "+" := nadd : num_scope.
Infix "-" := nsub : num_scope.
Infix "*" := nmul : num_scope.
Infix "/" := ndiv : num_scope.

(** The literal [0.5] is exact in binary64, as the quotient of 1 by 2. *)
Definition half {A} `{Number A} : A := (of_Z 1 / of_Z 2)%num.

(** [x.round(2)] of numpy: scale by [10**2], [rint], scale back. *)
Definition round2 {A} `{Number A} (x : A) : A :=
  (rint (x * of_Z 100) / of_Z 100)%num.

(** *** Binary64 instance *)

(** An integer below [2**63] in magnitude, as the nearest binary64 number. *)
Definition float_of_Z (z : Z) : float :=
  match z with
  | Z0 => PrimFloat.zero
  | Zpos _ => PrimFloat.of_uint63 (Uint63.of_Z z)
  | Zneg p => PrimFloat.opp (PrimFloat.of_uint63 (Uint63.of_Z (Zpos p)))
  end.

(** [rint] in round-to-nearest-even: below [2**52] in magnitude, adding and
    removing [2**52] leaves the nearest integer; from [2**52] on, every
    binary64 number is an integer already. *)
Definition float_rint (x : float) : float :=
  let big := 4503599627370496%float in
  if PrimFloat.ltb (PrimFloat.abs x) big then
    if PrimFloat.ltb x 0%float
    then PrimFloat.add (PrimFloat.sub x big) big
    else PrimFloat.sub (PrimFloat.add x big) big
  else x.

#[export] Instance float_number : Number float := {
  of_Z := float_of_Z;
  nadd := PrimFloat.add;
  nsub := PrimFloat.sub;
  nmul := PrimFloat.mul;
  ndiv := PrimFloat.div;
  nabs := PrimFloat.abs;
  nltb := PrimFloat.ltb;
  isnan := PrimFloat.is_nan;
  rint := float_rint;
  infinity := PrimFloat.infinity
}.

(** ** Tables *)

(** A cell of the category-code column [coicop_survey_1]: an integer of an
    int64 column, a string of an object column, or a missing value. *)
Inductive code : Type :=
  | CodeInt (z : Z)
  | CodeStr (s : string)
  | CodeNaN.

Module Households.
Record row (A : Type) : Type := {
  hh_id : option Z;
  weight : A;
  hh_size : A
}.
Arguments hh_id {A} _.
Arguments weight {A} _.
Arguments hh_size {A} _.
End Households.

Module Expenses.
Record row (A : Type) : Type := {
  hh_id : option Z;
  product_id : option Z;
  annual_expenditure : A
}.
Arguments hh_id {A} _.
Arguments product_id {A} _.
Arguments annual_expenditure {A} _.
End Expenses.

Module Products.
Record row : Type := {
  product_id : option Z;
  coicop_survey_1 : code
}.
End Products.

(** ** The world of the script: console, files and the loaded tables *)

(** A piece of a printed line: literal text, a number printed by [str], or
    a number printed with a format such as [.4f]. *)
Inductive fragment (A : Type) : Type :=
  | Lit (s : string)
  | Val (x : A)
  | Fixed (decimals : nat) (x : A).
Arguments Lit {A} s.
Arguments Val {A} x.
Arguments Fixed {A} decimals x.

(** What one [print] call shows: a line, or a two-column data frame. *)
Inductive printed (A : Type) : Type :=
  | Line (fs : list (fragment A))
  | Frame (header : list string) (rows : list (string * A)).
Arguments Line {A} fs.
Arguments Frame {A} header rows.

Inductive file (A : Type) : Type :=
  | Csv (header : list string) (rows : list (string * A))
  | Figure (xs ys : list A).
Arguments Csv {A} header rows.
Arguments Figure {A} xs ys.

Record world (A : Type) : Type := {
  df_households : list (Households.row A);
  df_expenses : list (Expenses.row A);
  df_products : list Products.row;
  console : list (printed A);
  dirs : gset string;
  files : gmap string (file A)
}.
Arguments df_households {A} _.
Arguments df_expenses {A} _.
Arguments df_products {A} _.
Arguments console {A} _.
Arguments dirs {A} _.
Arguments files {A} _.

Inductive exn : Type :=
  | ValueError
  | FileNotFoundError.

Inductive result (T : Type) : Type :=
  | Ok (x : T)
  | Raise (e : exn).
Arguments Ok {T} x.
Arguments Raise {T} e.

(** A computation of the script: it may print and write files, and it ends
    with a value or with an uncaught exception. *)
Definition M (A T : Type) : Type := world A -> result T * world A.

#[export] Instance M_ret {A} : MRet (M A) := fun T x w => (Ok x, w).

#[export] Instance M_bind {A} : MBind (M A) := fun T U k m w =>
  match m w with
  | (Ok x, w') => k x w'
  | (Raise e, w') => (Raise e, w')
  end.

Definition raise {A T} (e : exn) : M A T := fun w => (Raise e, w).

Definition print {A} (p : printed A) : M A unit :=
  fun w =>
    (Ok tt,
     {| df_households := df_households w; df_expenses := df_expenses w;
        df_products := df_products w; console := console w ++ [p];
        dirs := dirs w; files := files w |}).

(** [os.makedirs(d, exist_ok=True)] *)
Definition makedirs {A} (d : string) : M A unit :=
  fun w =>
    (Ok tt,
     {| df_households := df_households w; df_expenses := df_expenses w;
        df_products := df_products w; console := console w;
        dirs := {[ d ]} ∪ dirs w; files := files w |}).

(** Writing [d/name]: the directory has to exist. *)
Definition write_file {A} (d name : string) (f : file A) : M A unit :=
  fun w =>
    if bool_decide (d ∈ dirs w) then
      (Ok tt,
       {| df_households := df_households w; df_expenses := df_expenses w;
          df_products := df_products w; console := console w;
          dirs := dirs w;
          files := <[ (d ++ "/" ++ name)%string := f ]> (files w) |})
    else (Raise FileNotFoundError, w).

(** [for x in xs: body(x)] *)
Fixpoint for_each {A X} (xs : list X) (body : X -> M A unit) : M A unit :=
  match xs with
  | [] => mret tt
  | x :: rest => body x ;; for_each rest body
  end.

(** ** Python sets of identifier cells *)

(** [set(column)]: the identifiers present, and the missing cells.  Reading
    a column yields a float object of its own for every NaN, and a NaN
    equals nothing, itself included: each missing cell is one more element
    of the set, and a member of no other set. *)
Record pyset : Type := {
  members : gset Z;
  nans : nat
}.

Definition set_of_column (cells : list (option Z)) : pyset :=
  {| members := list_to_set (omap id cells);
     nans := length (filter (fun c => c = None) cells) |}.

Definition issubset (a b : pyset) : bool :=
  bool_decide (members a ⊆ members b) && Nat.eqb (nans a) 0.

Definition len (a : pyset) : nat := size (members a) + nans a.

(** ** Rendering of the printed text *)

Definition nl : string := String (ascii_of_nat 10) EmptyString.

Definition str_of_nat (n : nat) : string :=
  NilZero.string_of_uint (Nat.to_uint n).

Definition str_of_Z (z : Z) : string :=
  NilZero.string_of_int (Z.to_int z).

Fixpoint join (sep : string) (l : list string) : string :=
  match l with
  | [] => EmptyString
  | [s] => s
  | s :: rest => (s ++ sep ++ join sep rest)%string
  end.

(** [str] of a list of column names, as an f-string shows it. *)
Definition repr_list (l : list string) : string :=
  ("[" ++ join ", " (map (fun s => "'" ++ s ++ "'") l) ++ "]")%string.

(** ** Stage 2: [sanity_check] *)

Section Validator.
Context {A : Type} `{Number A}.

Definition code_isnull (c : code) : bool :=
  match c with CodeNaN => true | _ => false end.

Definition id_isnull (c : option Z) : bool :=
  match c with None => true | Some _ => false end.

(** [df.isnull().any()], column by column, in the order of the columns. *)
Definition households_isnull_any (df : list (Households.row A))
  : list (string * bool) :=
  [ ("hh_id"%string, existsb id_isnull (map Households.hh_id df));
    ("weight"%string, existsb isnan (map Households.weight df));
    ("hh_size"%string, existsb isnan (map Households.hh_size df)) ].

Definition expenses_isnull_any (df : list (Expenses.row A))
  : list (string * bool) :=
  [ ("hh_id"%string, existsb id_isnull (map Expenses.hh_id df));
    ("product_id"%string, existsb id_isnull (map Expenses.product_id df));
    ("annual_expenditure"%string,
     existsb isnan (map Expenses.annual_expenditure df)) ].

Definition products_isnull_any (df : list Products.row)
  : list (string * bool) :=
  [ ("product_id"%string, existsb id_isnull (map Products.product_id df));
    ("coicop_survey_1"%string,
     existsb code_isnull (map Products.coicop_survey_1 df)) ].

(** [df.columns[df.isnull().any()].tolist()] *)
Definition nan_columns_of (any : list (string * bool)) : list string :=
  map fst (filter (fun c => snd c = true) any).

Definition sanity_check
    (df_households : list (Households.row A))
    (df_expenses : list (Expenses.row A))
    (df_products : list Products.row) : M A unit :=
  let household_ids := set_of_column (map Households.hh_id df_households) in
  let expense_ids := set_of_column (map Expenses.hh_id df_expenses) in
  print (Line [Lit ("...................................sanity Check..........................." ++ nl)%string]) ;;
  (if issubset household_ids expense_ids then
     print (Line [Lit ("Yes, every household (" ++ str_of_nat (len household_ids)
                       ++ ") has expenses recorded.")%string])
   else
     print (Line [Lit "Warning: Some households do not have recorded expenses."])) ;;
  for_each
    [ ("households"%string, nan_columns_of (households_isnull_any df_households));
      ("expenses"%string, nan_columns_of (expenses_isnull_any df_expenses));
      ("products"%string, nan_columns_of (products_isnull_any df_products)) ]
    (fun '(df_name, nan_columns) =>
       match nan_columns with
       | [] => mret tt
       | _ :: _ =>
           print (Line [Lit ("Warning: Missing values detected in " ++ df_name
                             ++ " dataset in columns: "
                             ++ repr_list nan_columns)%string])
       end).

End Validator.

(** ** The pandas and numpy operations the stages use *)

Section Frames.
Context {A : Type} `{Number A}.

(** [left.merge(right, on=key)]: the inner join.  Every left row is paired
    with the right rows of the same key, in the order of the left rows;
    a row without a partner is dropped.  Missing keys match each other. *)
Definition merge {L R : Type} (on_left : L -> option Z) (on_right : R -> option Z)
    (left : list L) (right : list R) : list (L * R) :=
  flat_map
    (fun l => map (pair l) (filter (fun r => on_left l = on_right r) right))
    left.

(** [-0.0], with which numpy starts a sum that has terms. *)
Definition negative_zero : A := (of_Z 0 * of_Z (-1))%num.

(** One step of the compensated (Kahan) summation of pandas' [group_sum]:
    [y = val - compensation; t = sumx + y; compensation = t - sumx - y;
    sumx = t], the compensation put back to 0 when it is NaN (after an
    infinite value). *)
Definition kahan_add (state : A * A) (val : A) : A * A :=
  let '(sumx, compensation) := state in
  let y := (val - compensation)%num in
  let t := (sumx + y)%num in
  let compensation := (t - sumx - y)%num in
  (t, if isnan compensation then of_Z 0 else compensation).

(** A missing value is skipped: it leaves the sum and the compensation of
    its group as they are. *)
Definition group_sum_step (state : A * A) (val : A) : A * A :=
  if isnan val then state else kahan_add state val.

(** One more value for the group of key [k], the groups kept in ascending
    order of their keys, each with its sum and its compensation, both 0 at
    first. *)
Fixpoint group_add {K : Type} `{EqDecision K} (klt : K -> K -> bool)
    (k : K) (val : A) (groups : list (K * (A * A))) : list (K * (A * A)) :=
  match groups with
  | [] => [(k, group_sum_step (of_Z 0, of_Z 0) val)]
  | (k', state) :: rest =>
      if decide (k = k') then (k', group_sum_step state val) :: rest
      else if klt k k' then (k, group_sum_step (of_Z 0, of_Z 0) val) :: groups
      else (k', state) :: group_add klt k val rest
  end.

(** The groups after all the rows: a row whose key is missing belongs to no
    group. *)
Definition group_sums {K : Type} `{EqDecision K} (klt : K -> K -> bool)
    (rows : list (option K * A)) : list (K * (A * A)) :=
  fold_left
    (fun groups row =>
       match fst row with
       | None => groups
       | Some k => group_add klt k (snd row) groups
       end)
    rows [].

(** [df.groupby(key)[value].sum()] with the defaults [sort=True],
    [dropna=True], [skipna] and [min_count=0]: the keys in ascending order,
    each with the compensated sum of its values that are not missing. *)
Definition groupby_sum {K : Type} `{EqDecision K} (klt : K -> K -> bool)
    (rows : list (option K * A)) : list (K * A) :=
  map (fun g => (fst g, fst (snd g))) (group_sums klt rows).

(** The loop of numpy's pairwise summation over the blocks of eight that
    follow the first: [r[j] += a[i + j]].  It returns the eight partial sums
    and the terms left, fewer than eight. *)
Fixpoint add_blocks (r rest : list A) (fuel : nat) : list A * list A :=
  match fuel with
  | O => (r, rest)
  | S fuel =>
      if (8 <=? length rest)%nat
      then add_blocks (zip_with nadd r (take 8 rest)) (drop 8 rest) fuel
      else (r, rest)
  end.

(** From 8 to 128 terms: eight partial sums, added in pairs, then the
    terms left, one by one. *)
Definition unrolled_sum (xs : list A) : A :=
  match add_blocks (take 8 xs) (drop 8 xs) (length xs) with
  | ([r0; r1; r2; r3; r4; r5; r6; r7], rest) =>
      fold_left nadd rest
        (((r0 + r1) + (r2 + r3)) + ((r4 + r5) + (r6 + r7)))%num
  | _ => negative_zero
  end.

(** [pairwise_sum] of numpy's [add] loop: fewer than 8 terms are added one
    by one from [-0.0]; up to 128 terms go through [unrolled_sum]; more are
    split in two halves, the first a multiple of 8 long.  The fuel bounds
    the depth of the splitting. *)
Fixpoint pairwise_sum (fuel : nat) (xs : list A) : A :=
  if (length xs <? 8)%nat then fold_left nadd xs negative_zero
  else if (length xs <=? 128)%nat then unrolled_sum xs
  else
    match fuel with
    | O => negative_zero
    | S fuel =>
        let n2 := (length xs / 2 - (length xs / 2) mod 8)%nat in
        (pairwise_sum fuel (take n2 xs) + pairwise_sum fuel (drop n2 xs))%num
    end.

(** [np.sum] of a float64 array: 0 when the array is empty; otherwise the
    pairwise sum of its terms, added to the initial value [-0.0].  NaN
    propagates. *)
Definition np_sum (xs : list A) : A :=
  match xs with
  | [] => of_Z 0
  | _ :: _ => (negative_zero + pairwise_sum (length xs) xs)%num
  end.

(** [Series.sum()], which [np.sum] of a Series calls: a missing value
    counts as 0. *)
Definition series_sum (xs : list A) : A :=
  np_sum (map (fun x => if isnan x then of_Z 0 else x) xs).

Fixpoint accumulate (acc : A) (xs : list A) : list A :=
  match xs with
  | [] => []
  | x :: rest => let s := (acc + x)%num in s :: accumulate s rest
  end.

(** [np.cumsum] of an array: the running sums, the first one the first
    element itself. *)
Definition np_cumsum (xs : list A) : list A :=
  match xs with
  | [] => []
  | x :: rest => x :: accumulate x rest
  end.

(** [Series.cumsum()], which [np.cumsum] of a Series calls: a missing
    value counts as 0 in the running sums and stays missing at its own
    position. *)
Definition series_cumsum (xs : list A) : list A :=
  zip_with (fun x s => if isnan x then x else s) xs
    (np_cumsum (map (fun x => if isnan x then of_Z 0 else x) xs)).

Fixpoint argmin_from (best : nat * A) (i : nat) (xs : list A) : nat :=
  match xs with
  | [] => fst best
  | x :: rest =>
      if nltb x (snd best) then argmin_from (i, x) (S i) rest
      else argmin_from best (S i) rest
  end.

(** [np.argmin] of an array without NaN: the position of the first smallest
    value; numpy raises [ValueError] on an empty array. *)
Definition np_argmin (xs : list A) : option nat :=
  match xs with
  | [] => None
  | x :: rest => Some (argmin_from (0%nat, x) 1 rest)
  end.

(** [Series.argmin()], which [np.argmin] of a Series calls: pandas puts
    [+inf] in the place of the missing values and takes [np.argmin].  On a
    Series without a value, empty or all missing, it raises [ValueError]
    (pandas 3; on an all-missing one pandas 2 warns instead and returns
    -1). *)
Definition series_argmin (xs : list A) : option nat :=
  if forallb isnan xs then None
  else np_argmin (map (fun x => if isnan x then infinity else x) xs).

(** [np.diff(x)]: [x[1:] - x[:-1]] *)
Definition np_diff (xs : list A) : list A := zip_with nsub (tail xs) xs.

(** [np.trapezoid(y, x)]:
    [(diff(x) * (y[1:] + y[:-1]) / 2.0).sum()] *)
Definition np_trapezoid (y x : list A) : A :=
  np_sum
    (zip_with (fun d yy => (d * yy / of_Z 2)%num)
       (np_diff x) (zip_with nadd (tail y) y)).

(** Ascending order of [sort_values], missing keys last. *)
Definition key_le (x y : A) : bool :=
  isnan y || (negb (isnan x) && negb (nltb y x)).

Fixpoint sorted_insert {R : Type} (key : R -> A) (r : R) (l : list R) : list R :=
  match l with
  | [] => [r]
  | r' :: rest =>
      if key_le (key r) (key r') then r :: l
      else r' :: sorted_insert key r rest
  end.

(** A stable sort by [key], the reference instance of [sort_values]. *)
Definition stable_sort {R : Type} (key : R -> A) (l : list R) : list R :=
  fold_right (sorted_insert key) [] l.

End Frames.

(** What the stages rely on from [DataFrame.sort_values(by)]: the rows
    come back rearranged in ascending order of the key.  The default
    algorithm of pandas is not stable, so nothing is assumed on the order of
    rows with equal keys. *)
Definition sorts_values {A} `{Number A}
    (sort_values : forall R : Type, (R -> A) -> list R -> list R) : Prop :=
  forall (R : Type) (key : R -> A) (l : list R),
    Permutation (sort_values R key l) l /\
    StronglySorted (fun a b => key_le (key a) (key b) = true)
      (sort_values R key l).

(** ** Stage 3: [compute_national_share] *)

(** Mapping COICOP Level 1 codes to category names *)
Definition coicop_mapping : gmap string string :=
  list_to_map
    [ ("1", "FOOD AND NON-ALCOHOLIC BEVERAGES");
      ("2", "ALCOHOLIC BEVERAGES, TOBACCO AND NARCOTICS");
      ("3", "CLOTHING AND FOOTWEAR");
      ("4", "HOUSING, WATER, ELECTRICITY, GAS AND OTHER FUELS");
      ("5", "FURNISHINGS, HOUSEHOLD EQUIPMENT AND ROUTINE HOUSEHOLD MAINTENANCE");
      ("6", "HEALTH");
      ("7", "TRANSPORT");
      ("8", "COMMUNICATION");
      ("9", "RECREATION AND CULTURE");
      ("10", "EDUCATION");
      ("11", "RESTAURANTS AND HOTELS");
      ("12", "MISCELLANEOUS GOODS AND SERVICES") ]%string.

(** [.astype(str)] on a cell of the code column *)
Definition astype_str (c : code) : string :=
  match c with
  | CodeInt z => str_of_Z z
  | CodeStr s => s
  | CodeNaN => "nan"
  end.

(** [.astype(str).map(coicop_mapping)]: a code that is no key of the
    mapping gives a missing category. *)
Definition coicop_category (c : code) : option string :=
  coicop_mapping !! astype_str c.

Section NationalShare.
Context {A : Type} `{Number A}.

(** The expense rows after the two merges, each with the product row and
    the [hh_id], [weight] pair of the household it was joined to. *)
Definition merged_expenses
    (df_households : list (Households.row A))
    (df_expenses : list (Expenses.row A))
    (df_products : list Products.row)
  : list (Expenses.row A * Products.row * (option Z * A)) :=
  let df_expenses :=
    merge Expenses.product_id Products.product_id df_expenses df_products in
  merge (fun r => Expenses.hh_id (fst r)) fst df_expenses
    (map (fun h => (Households.hh_id h, Households.weight h)) df_households).

(** The columns [coicop_category] and [weighted_expenditure] of a merged
    row. *)
Definition category_and_weighted
    (r : Expenses.row A * Products.row * (option Z * A)) : option string * A :=
  (coicop_category (Products.coicop_survey_1 (snd (fst r))),
   (Expenses.annual_expenditure (fst (fst r)) * snd (snd r))%num).

(** Aggregate expenditure at COICOP Level 1 *)
Definition national_expenditure
    (df_households : list (Households.row A))
    (df_expenses : list (Expenses.row A))
    (df_products : list Products.row) : list (string * A) :=
  groupby_sum String.ltb
    (map category_and_weighted
       (merged_expenses df_households df_expenses df_products)).

(** The table of the stage: a category and its share in percent, rounded to
    two decimals. *)
Definition national_share
    (df_households : list (Households.row A))
    (df_expenses : list (Expenses.row A))
    (df_products : list Products.row) : list (string * A) :=
  let df_national_expenditure :=
    national_expenditure df_households df_expenses df_products in
  let total_expenditure := series_sum (map snd df_national_expenditure) in
  let df_national_share :=
    map (fun g => (fst g, (snd g / total_expenditure * of_Z 100)%num))
      df_national_expenditure in
  map (fun g => (fst g, round2 (snd g))) df_national_share.

Definition compute_national_share
    (df_households : list (Households.row A))
    (df_expenses : list (Expenses.row A))
    (df_products : list Products.row) : M A unit :=
  let df_national_share :=
    national_share df_households df_expenses df_products in
  let header := ["Category"; "Share (%)"]%string in
  let output_dir := "output"%string in
  makedirs output_dir ;;
  write_file output_dir "national_share.csv" (Csv header df_national_share) ;;
  print (Line [Lit "National Share of Spending by COICOP Level 1:"]) ;;
  print (Frame header df_national_share).

End NationalShare.

(** ** Stage 4: [compute_lorenz_curve_and_gini] *)

Module Lorenz.
Record row (A : Type) : Type := {
  hh_id : Z;
  annual_expenditure : A;
  weight : A;
  hh_size : A;
  per_capita_expenditure : A
}.
Arguments hh_id {A} _.
Arguments annual_expenditure {A} _.
Arguments weight {A} _.
Arguments hh_size {A} _.
Arguments per_capita_expenditure {A} _.
End Lorenz.

Section LorenzGini.
Context {A : Type} `{Number A}.
Variable sort_values : forall R : Type, (R -> A) -> list R -> list R.

(** Total expenditure of each household, joined to its household row, with
    the per-capita column. *)
Definition household_totals
    (df_households : list (Households.row A))
    (df_expenses : list (Expenses.row A)) : list (Lorenz.row A) :=
  let total_expenditure :=
    groupby_sum Z.ltb
      (map (fun e => (Expenses.hh_id e, Expenses.annual_expenditure e))
         df_expenses) in
  let total_expenditure :=
    merge (fun g => Some (fst g)) Households.hh_id
      total_expenditure df_households in
  map
    (fun r =>
       {| Lorenz.hh_id := fst (fst r);
          Lorenz.annual_expenditure := snd (fst r);
          Lorenz.weight := Households.weight (snd r);
          Lorenz.hh_size := Households.hh_size (snd r);
          Lorenz.per_capita_expenditure :=
            (snd (fst r) / Households.hh_size (snd r))%num |})
    total_expenditure.

(** The households sorted by per-capita expenditure. *)
Definition total_expenditure
    (df_households : list (Households.row A))
    (df_expenses : list (Expenses.row A)) : list (Lorenz.row A) :=
  sort_values _ Lorenz.per_capita_expenditure
    (household_totals df_households df_expenses).

(** The column [cum_pop] of a sorted table. *)
Definition cum_pop (t : list (Lorenz.row A)) : list A :=
  let pop := map (fun r => (Lorenz.hh_size r * Lorenz.weight r)%num) t in
  series_cumsum (map (fun p => (p / series_sum pop)%num) pop).

(** The column [cum_exp] of a sorted table. *)
Definition cum_exp (t : list (Lorenz.row A)) : list A :=
  let spent :=
    map (fun r => (Lorenz.annual_expenditure r * Lorenz.weight r)%num) t in
  series_cumsum (map (fun e => (e / series_sum spent)%num) spent).

Definition nearest_fifty (t : list (Lorenz.row A)) : option nat :=
  series_argmin (map (fun c => nabs (c - half)%num) (cum_pop t)).

(** [(100 * cum_exp.values[nearest_fifty]).round(2)]; the position is within
    the column, which is as long as the table. *)
Definition fifty_percentile_share (t : list (Lorenz.row A)) : option A :=
  i ← nearest_fifty t;
  y ← cum_exp t !! i;
  Some (round2 (of_Z 100 * y)%num).

Definition gini (t : list (Lorenz.row A)) : A :=
  let lorenz_x := cum_pop t in
  let lorenz_y := cum_exp t in
  (of_Z 1 - of_Z 2 * np_trapezoid lorenz_y lorenz_x)%num.

Definition compute_lorenz_curve_and_gini
    (df_households : list (Households.row A))
    (df_expenses : list (Expenses.row A)) : M A unit :=
  let total_expenditure := total_expenditure df_households df_expenses in
  match fifty_percentile_share total_expenditure with
  | None => raise ValueError
  | Some fifty_percentile_share =>
      print (Line [Lit "The bottom 50% of the population contributes a ";
                   Val fifty_percentile_share;
                   Lit "% of the total expenditure"]) ;;
      write_file "output" "lorenz_curve.png"
        (Figure (cum_pop total_expenditure) (cum_exp total_expenditure)) ;;
      print (Line [Lit (nl ++ "Gini Coefficient: ")%string;
                   Fixed 4 (gini total_expenditure)])
  end.

End LorenzGini.

(** ** The script *)

(** The three tables of the world are those [load_data] returned. *)
Definition main {A} `{Number A}
    (sort_values : forall R : Type, (R -> A) -> list R -> list R) : M A unit :=
  fun w =>
    (sanity_check (df_households w) (df_expenses w) (df_products w) ;;
     compute_national_share (df_households w) (df_expenses w) (df_products w) ;;
     compute_lorenz_curve_and_gini sort_values (df_households w) (df_expenses w))
      w.

(** * Properties *)

(** ** Computations that only print *)

Definition with_console {A} (w : world A) (out : list (printed A)) : world A :=
  {| df_households := df_households w; df_expenses := df_expenses w;
     df_products := df_products w; console := console w ++ out;
     dirs := dirs w; files := files w |}.

(** [prints m out]: from any world, [m] ends normally, shows [out] on the
    console and does nothing else. *)
Definition prints {A} (m : M A unit) (out : list (printed A)) : Prop :=
  forall w, m w = (Ok tt, with_console w out).

Section Printing.
Context {A : Type}.

Lemma with_console_nil (w : world A) : with_console w [] = w.
Proof. destruct w; unfold with_console; simpl. by rewrite app_nil_r. Qed.

Lemma with_console_app (w : world A) out1 out2 :
  with_console (with_console w out1) out2 = with_console w (out1 ++ out2).
Proof. unfold with_console; simpl. by rewrite app_assoc. Qed.

Lemma prints_print (p : printed A) : prints (print p) [p].
Proof. by intros w. Qed.

Lemma prints_ret : prints (A:=A) (mret tt) [].
Proof. intros w. by rewrite with_console_nil. Qed.

Lemma prints_bind (m k : M A unit) out1 out2 :
  prints m out1 -> prints k out2 -> prints (m ;; k) (out1 ++ out2).
Proof.
  intros Hm Hk w. unfold mbind, M_bind. rewrite Hm, Hk.
  by rewrite with_console_app.
Qed.

Lemma prints_for_each {X} (xs : list X) (body : X -> M A unit)
    (out : X -> list (printed A)) :
  (forall x, prints (body x) (out x)) ->
  prints (for_each xs body) (concat (map out xs)).
Proof.
  intros Hbody. induction xs as [|x xs IH]; simpl.
  - apply prints_ret.
  - by apply prints_bind.
Qed.

End Printing.

(** ** The validator *)

Section ValidatorFacts.
Context {A : Type} `{Number A}.

Definition sanity_header : printed A :=
  Line [Lit ("...................................sanity Check..........................." ++ nl)%string].

Definition confirmation (n : nat) : printed A :=
  Line [Lit ("Yes, every household (" ++ str_of_nat n
             ++ ") has expenses recorded.")%string].

Definition subset_warning : printed A :=
  Line [Lit "Warning: Some households do not have recorded expenses."].

Definition nan_warning (df_name : string) (nan_columns : list string)
  : list (printed A) :=
  match nan_columns with
  | [] => []
  | _ :: _ =>
      [Line [Lit ("Warning: Missing values detected in " ++ df_name
                  ++ " dataset in columns: " ++ repr_list nan_columns)%string]]
  end.

(** The line of the subset check. *)
Definition verdict (df_households : list (Households.row A))
    (df_expenses : list (Expenses.row A)) : printed A :=
  let household_ids := set_of_column (map Households.hh_id df_households) in
  let expense_ids := set_of_column (map Expenses.hh_id df_expenses) in
  if issubset household_ids expense_ids
  then confirmation (len household_ids) else subset_warning.

Definition nan_report (df_households : list (Households.row A))
    (df_expenses : list (Expenses.row A)) (df_products : list Products.row)
  : list (printed A) :=
  nan_warning "households" (nan_columns_of (households_isnull_any df_households))
  ++ nan_warning "expenses" (nan_columns_of (expenses_isnull_any df_expenses))
  ++ nan_warning "products" (nan_columns_of (products_isnull_any df_products)).

Lemma sanity_check_prints hs es ps :
  prints (sanity_check hs es ps)
    (sanity_header :: verdict hs es :: nan_report hs es ps).
Proof.
  unfold sanity_check.
  apply (prints_bind _ _ [_] (_ :: _)); [apply prints_print|].
  apply (prints_bind _ _ [_] _).
  - unfold verdict. destruct (issubset _ _); apply prints_print.
  - unfold nan_report.
    set (body := fun '(df_name, nan_columns) => _).
    pose proof (prints_for_each
      [ ("households"%string, nan_columns_of (households_isnull_any hs));
        ("expenses"%string, nan_columns_of (expenses_isnull_any es));
        ("products"%string, nan_columns_of (products_isnull_any ps)) ]
      body (fun x => nan_warning (fst x) (snd x))) as Hfor.
    simpl in Hfor. rewrite app_nil_r in Hfor. apply Hfor.
    intros [df_name cols]; simpl. destruct cols; [apply prints_ret|apply prints_print].
Qed.

(** Membership in a Python set and the subset test, on the cells of the two
    identifier columns. *)
Lemma elem_of_members (cells : list (option Z)) (k : Z) :
  k ∈ members (set_of_column cells) <-> Some k ∈ cells.
Proof.
  unfold set_of_column; simpl. rewrite elem_of_list_to_set, list_elem_of_omap.
  split.
  - intros (c & Hc & Hk). simpl in Hk. by subst.
  - intros Hk. by exists (Some k).
Qed.

Lemma nans_zero (cells : list (option Z)) :
  nans (set_of_column cells) = 0%nat <-> None ∉ cells.
Proof.
  unfold set_of_column; simpl. rewrite length_zero_iff_nil. split.
  - intros Hnil. by apply (filter_nil_not_elem_of _ _ _ Hnil).
  - intros Hnot. apply elem_of_nil_inv. intros c Hc.
    apply list_elem_of_filter in Hc as [-> Hc]. by apply Hnot.
Qed.

(** [issubset] holds exactly when every cell of the first column is an
    identifier that occurs in the second column. *)
Lemma issubset_spec (cells1 cells2 : list (option Z)) :
  issubset (set_of_column cells1) (set_of_column cells2) = true <->
  forall c, c ∈ cells1 -> exists k, c = Some k /\ Some k ∈ cells2.
Proof.
  unfold issubset. rewrite andb_true_iff, bool_decide_eq_true, Nat.eqb_eq, nans_zero.
  split.
  - intros [Hsub Hnan] [k|] Hc; [|done].
    exists k. split; [done|]. apply elem_of_members, Hsub, elem_of_members, Hc.
  - intros Hall. split.
    + intros k Hk. apply elem_of_members in Hk.
      destruct (Hall _ Hk) as (k' & [= <-] & Hin). by apply elem_of_members.
    + intros Hnone. by destruct (Hall _ Hnone) as (k & ? & _).
Qed.

End ValidatorFacts.

Section ValidatorClaims.
Context {A : Type} `{Number A}.

(** Every identifier cell of the household table is an identifier that
    occurs in the expense table: the set of household identifiers is a subset
    of the set of identifiers with expenses.  (A missing identifier occurs
    nowhere.) *)
Definition household_ids_covered (df_households : list (Households.row A))
    (df_expenses : list (Expenses.row A)) : Prop :=
  forall c, c ∈ map Households.hh_id df_households ->
    exists k, c = Some k /\ Some k ∈ map Expenses.hh_id df_expenses.

Lemma verdict_covered hs es :
  household_ids_covered hs es ->
  verdict hs es = confirmation (len (set_of_column (map Households.hh_id hs))).
Proof.
  intros Hcov. unfold verdict.
  by rewrite (proj2 (issubset_spec _ _) Hcov).
Qed.

Lemma verdict_not_covered hs es :
  ~ household_ids_covered hs es -> verdict hs es = subset_warning.
Proof.
  intros Hcov. unfold verdict.
  destruct (issubset _ _) eqn:Hsub; [|done].
  destruct Hcov. exact (proj1 (issubset_spec _ _) Hsub).
Qed.

(** Without missing identifiers, the test is the inclusion of the two sets
    of identifiers. *)
Lemma covered_iff_subset hs es :
  None ∉ map Households.hh_id hs ->
  household_ids_covered hs es <->
  (list_to_set (omap id (map Households.hh_id hs)) : gset Z)
    ⊆ list_to_set (omap id (map Expenses.hh_id es)).
Proof.
  intros Hnone. unfold household_ids_covered. split.
  - intros Hcov k. rewrite !elem_of_list_to_set, !list_elem_of_omap.
    intros (c & Hc & Hk). simpl in Hk; subst c.
    destruct (Hcov _ Hc) as (k' & [= <-] & Hin). by exists (Some k).
  - intros Hsub [k|] Hc; [|done]. exists k. split; [done|].
    assert (k ∈ (list_to_set (omap id (map Expenses.hh_id es)) : gset Z)) as Hk.
    { apply Hsub. rewrite elem_of_list_to_set, list_elem_of_omap. by exists (Some k). }
    rewrite elem_of_list_to_set, list_elem_of_omap in Hk.
    destruct Hk as (c & Hin & Hk). simpl in Hk. by subst.
Qed.

(** C8.  The validator decides whether the household identifiers of the
    household table are all among the household identifiers of the expense
    table.  After the header it prints the confirmation when they are and
    the warning when they are not; in both cases it ends normally, so the
    script goes on. *)
Theorem sanity_check_reports_subset hs es ps (w : world A) :
  exists rest,
    sanity_check hs es ps w
      = (Ok tt, with_console w (sanity_header :: verdict hs es :: rest)) /\
    (household_ids_covered hs es ->
       verdict hs es
         = confirmation (len (set_of_column (map Households.hh_id hs)))) /\
    (~ household_ids_covered hs es -> verdict hs es = subset_warning).
Proof.
  exists (nan_report hs es ps). split; [apply sanity_check_prints|].
  split; [apply verdict_covered|apply verdict_not_covered].
Qed.

(** C9.  The validator changes nothing but the console: the three tables,
    the directories and the files are after the check what they were before
    it, and the console has only grown. *)
Theorem sanity_check_frame hs es ps (w : world A) :
  df_households (snd (sanity_check hs es ps w)) = df_households w /\
  df_expenses (snd (sanity_check hs es ps w)) = df_expenses w /\
  df_products (snd (sanity_check hs es ps w)) = df_products w /\
  dirs (snd (sanity_check hs es ps w)) = dirs w /\
  files (snd (sanity_check hs es ps w)) = files w /\
  exists out, console (snd (sanity_check hs es ps w)) = console w ++ out.
Proof.
  pose proof (sanity_check_prints hs es ps w) as Hrun.
  destruct (sanity_check hs es ps w) as [r w']. injection Hrun as -> ->.
  simpl. repeat (split; [reflexivity|]). by eexists.
Qed.

(** C1, as amended.  When some household identifier of the household table
    does not occur in the expense table, the validator prints the
    subset-violation warning. *)
Theorem sanity_check_warns_household_without_expenses hs es ps (w : world A) k :
  Some k ∈ map Households.hh_id hs ->
  Some k ∉ map Expenses.hh_id es ->
  subset_warning ∈ console (snd (sanity_check hs es ps w)).
Proof.
  intros Hin Hout. rewrite sanity_check_prints. simpl.
  rewrite verdict_not_covered.
  - rewrite elem_of_app, !elem_of_cons. tauto.
  - intros Hcov. destruct (Hcov _ Hin) as (k' & [= <-] & Hk). by apply Hout.
Qed.

End ValidatorClaims.

(** ** The validator on concrete tables *)

Definition empty_world {A} : world A :=
  {| df_households := []; df_expenses := []; df_products := [];
     console := []; dirs := ∅; files := ∅ |}.

Definition household_f (k : Z) (w s : float) : Households.row float :=
  {| Households.hh_id := Some k; Households.weight := w;
     Households.hh_size := s |}.

Definition expense_f (k p : Z) (x : float) : Expenses.row float :=
  {| Expenses.hh_id := Some k; Expenses.product_id := Some p;
     Expenses.annual_expenditure := x |}.

Definition product (p : Z) (c : code) : Products.row :=
  {| Products.product_id := Some p; Products.coicop_survey_1 := c |}.

(** C1, the claim as stated fails: household 2 has expenses and no row in
    the household table, and the validator prints the confirmation, not the
    warning. *)
Lemma sanity_check_silent_on_unknown_household :
  (Some 2%Z) ∈ map Expenses.hh_id [expense_f 1 7 10; expense_f 2 7 20] /\
  ((Some 2%Z) ∉ map Households.hh_id [household_f 1 1 1]) /\
  console (snd (sanity_check [household_f 1 1 1] [expense_f 1 7 10; expense_f 2 7 20]
                  [product 7 (CodeInt 1)] empty_world))
    = [sanity_header; confirmation 1] /\
  subset_warning
    ∉ console (snd (sanity_check [household_f 1 1 1]
                      [expense_f 1 7 10; expense_f 2 7 20]
                      [product 7 (CodeInt 1)] empty_world)).
Proof.
  assert (console (snd (sanity_check [household_f 1 1 1]
                          [expense_f 1 7 10; expense_f 2 7 20]
                          [product 7 (CodeInt 1)] empty_world))
          = [sanity_header; confirmation 1]) as Hrun by (vm_compute; reflexivity).
  rewrite Hrun. split; [|split; [|split]].
  - simpl. rewrite !elem_of_cons. auto.
  - simpl. rewrite list_elem_of_singleton. intros [= ?].
  - reflexivity.
  - rewrite !elem_of_cons, elem_of_nil. intros [?|[?|[]]]; discriminate.
Qed.

Lemma sanity_check_warns_household_without_expenses_witness :
  (Some 2%Z) ∈ map Households.hh_id [household_f 1 1 1; household_f 2 1 1] /\
  ((Some 2%Z) ∉ map Expenses.hh_id [expense_f 1 7 10]) /\
  subset_warning
    ∈ console (snd (sanity_check [household_f 1 1 1; household_f 2 1 1]
                      [expense_f 1 7 10] [product 7 (CodeInt 1)] empty_world)).
Proof.
  assert ((Some 2%Z) ∈ map Households.hh_id [household_f 1 1 1; household_f 2 1 1]) as Hin.
  { simpl. rewrite !elem_of_cons. auto. }
  assert ((Some 2%Z) ∉ map Expenses.hh_id [expense_f 1 7 10]) as Hout.
  { simpl. rewrite list_elem_of_singleton. intros [= ?]. }
  split; [exact Hin|]. split; [exact Hout|].
  exact (sanity_check_warns_household_without_expenses _ _ _ _ _ Hin Hout).
Defined.

(** ** Joins and groups *)

Section FramesFacts.
Context {A : Type} `{Number A}.

Lemma elem_of_merge {L R : Type} (on_left : L -> option Z)
    (on_right : R -> option Z) (left : list L) (right : list R) l r :
  (l, r) ∈ merge on_left on_right left right <->
  l ∈ left /\ r ∈ right /\ on_left l = on_right r.
Proof.
  unfold merge. rewrite list_elem_of_In, in_flat_map. split.
  - intros (l' & Hl' & Hin). apply list_elem_of_In, list_elem_of_fmap in Hin.
    destruct Hin as (r' & [= -> ->] & Hr').
    apply list_elem_of_filter in Hr' as [Hkey Hr'].
    by rewrite list_elem_of_In.
  - intros (Hl & Hr & Hkey). exists l. split; [by apply list_elem_of_In|].
    apply list_elem_of_In, list_elem_of_fmap. exists r. split; [done|].
    by apply list_elem_of_filter.
Qed.

Lemma filter_flat_map {X Y : Type} (P : Y -> Prop) `{forall y, Decision (P y)}
    (f : X -> list Y) (l : list X) :
  filter P (flat_map f l) = flat_map (fun x => filter P (f x)) l.
Proof.
  induction l as [|x l IH]; simpl; [done|]. by rewrite filter_app, IH.
Qed.

Lemma filter_map_pair {X Y : Type} (P : Y -> Prop) `{forall y, Decision (P y)}
    (x : X) (l : list Y) :
  filter (fun xy => P (snd xy)) (map (pair x) l) = map (pair x) (filter P l).
Proof.
  induction l as [|y l IH]; simpl; [done|].
  rewrite !filter_cons; simpl. destruct (decide (P y)); simpl; by rewrite IH.
Qed.

(** Dropping rows of the right table drops the joined rows they gave. *)
Lemma merge_filter_right {L R : Type} (on_left : L -> option Z)
    (on_right : R -> option Z) (P : R -> Prop) `{forall r, Decision (P r)}
    (left : list L) (right : list R) :
  merge on_left on_right left (filter P right)
  = filter (fun lr => P (snd lr)) (merge on_left on_right left right).
Proof.
  unfold merge. rewrite filter_flat_map. apply flat_map_ext. intros l.
  rewrite filter_map_pair. f_equal.
  rewrite !list_filter_filter. apply list_filter_iff. tauto.
Qed.

Lemma filter_map_pair_left {X Y : Type} (P : X -> Prop)
    `{forall x, Decision (P x)} (x : X) (l : list Y) :
  filter (fun xy => P (fst xy)) (map (pair x) l)
  = if decide (P x) then map (pair x) l else [].
Proof.
  induction l as [|y l IH]; simpl; [by destruct (decide (P x))|].
  rewrite filter_cons; simpl. rewrite IH. by destruct (decide (P x)).
Qed.

(** Dropping rows of the left table drops the joined rows they gave. *)
Lemma merge_filter_left {L R : Type} (on_left : L -> option Z)
    (on_right : R -> option Z) (P : L -> Prop) `{forall l, Decision (P l)}
    (left : list L) (right : list R) :
  merge on_left on_right (filter P left) right
  = filter (fun lr => P (fst lr)) (merge on_left on_right left right).
Proof.
  unfold merge. rewrite filter_flat_map.
  induction left as [|l left IH]; simpl; [done|].
  rewrite filter_cons, filter_map_pair_left.
  destruct (decide (P l)); simpl; by rewrite IH.
Qed.

Lemma groupby_sum_keys {K : Type} `{EqDecision K} (klt : K -> K -> bool)
    (rows : list (option K * A)) :
  map fst (groupby_sum klt rows) = map fst (group_sums klt rows).
Proof. unfold groupby_sum. rewrite map_map. by apply map_ext. Qed.

(** Rows without a key play no part in a group-by. *)
Lemma groupby_sum_dropna {K : Type} `{EqDecision K} (klt : K -> K -> bool)
    (rows : list (option K * A)) :
  groupby_sum klt (filter (fun r => is_Some (fst r)) rows)
  = groupby_sum klt rows.
Proof.
  unfold groupby_sum, group_sums. f_equal. generalize (@nil (K * (A * A))).
  induction rows as [|[k v] rows IH]; intros groups; simpl; [done|].
  rewrite filter_cons. case_decide as Hk; simpl in *.
  - apply IH.
  - destruct k as [k|]; [destruct Hk; eauto|apply IH].
Qed.

Lemma elem_of_group_add {K : Type} `{EqDecision K} (klt : K -> K -> bool)
    (k k' : K) (v : A) (groups : list (K * (A * A))) :
  k' ∈ map fst (group_add klt k v groups) <->
  k' = k \/ k' ∈ map fst groups.
Proof.
  induction groups as [|[k0 s] groups IH]; simpl.
  - rewrite list_elem_of_singleton, elem_of_nil. tauto.
  - destruct (decide (k = k0)) as [->|Hne]; simpl.
    + rewrite !elem_of_cons. tauto.
    + destruct (klt k k0); simpl; rewrite !elem_of_cons; [tauto|].
      rewrite IH. tauto.
Qed.

(** The groups of a group-by are the keys that occur in the rows. *)
Lemma elem_of_groupby_keys {K : Type} `{EqDecision K} (klt : K -> K -> bool)
    (rows : list (option K * A)) (k : K) :
  k ∈ map fst (groupby_sum klt rows) <-> Some k ∈ map fst rows.
Proof.
  rewrite groupby_sum_keys. unfold group_sums.
  assert (forall groups,
    k ∈ map fst (fold_left (fun groups row =>
         match fst row with
         | None => groups
         | Some k => group_add klt k (snd row) groups
         end) rows groups)
    <-> k ∈ map fst groups \/ Some k ∈ map fst rows) as Hgen.
  { induction rows as [|[k0 v] rows IH]; intros groups; simpl.
    - rewrite elem_of_nil. tauto.
    - rewrite IH, elem_of_cons. destruct k0 as [k0|]; simpl.
      + rewrite elem_of_group_add. split; [|intros [?|[[= ->]|?]]; auto].
        intros [[->|?]|?]; auto.
      + split; [tauto|]. intros [?|[[=]|?]]; auto. }
  rewrite Hgen. simpl. rewrite elem_of_nil. tauto.
Qed.

End FramesFacts.

Section NationalShareFacts.
Context {A : Type} `{Number A}.

Lemma filter_map_comm {X Y : Type} (f : X -> Y) (P : Y -> Prop)
    `{forall y, Decision (P y)} (l : list X) :
  filter P (map f l) = map f (filter (fun x => P (f x)) l).
Proof.
  induction l as [|x l IH]; simpl; [done|].
  rewrite !filter_cons. destruct (decide (P (f x))); simpl; by rewrite IH.
Qed.

(** A product is mapped when its code is a key of [coicop_mapping]. *)
Definition mapped (p : Products.row) : Prop :=
  is_Some (coicop_category (Products.coicop_survey_1 p)).

Lemma national_expenditure_mapped_only hs es ps :
  national_expenditure (A:=A) hs es (filter mapped ps)
  = national_expenditure hs es ps.
Proof.
  unfold national_expenditure, merged_expenses.
  rewrite merge_filter_right, merge_filter_left.
  rewrite <- (groupby_sum_dropna _ (map _ (merge _ _ _ _))).
  rewrite filter_map_comm. reflexivity.
Qed.

Lemma national_share_categories hs es ps (g : string * A) :
  g ∈ national_share hs es ps ->
  exists c : string, coicop_mapping !! c = Some (fst g).
Proof.
  unfold national_share. rewrite list_elem_of_fmap.
  intros ([k s] & -> & Hin). simpl.
  apply list_elem_of_fmap in Hin as ([k' s'] & [= -> ->] & Hin). simpl.
  assert (k' ∈ map fst (national_expenditure hs es ps)) as Hk.
  { apply list_elem_of_fmap. by exists (k', s'). }
  unfold national_expenditure in Hk. apply elem_of_groupby_keys in Hk.
  rewrite map_map in Hk. apply list_elem_of_fmap in Hk as (r & Hr & _).
  simpl in Hr. unfold coicop_category in Hr. eauto.
Qed.

Lemma compute_national_share_ok hs es ps (w : world A) :
  fst (compute_national_share hs es ps w) = Ok tt.
Proof.
  unfold compute_national_share, mbind, M_bind, makedirs, write_file, print.
  simpl. rewrite bool_decide_eq_true_2; [done|]. set_solver.
Qed.

(** C4, as amended.  The category-share aggregation does not fail, whatever
    the category codes.  An expense row whose product has a code outside
    "1".."12" gets a missing category, and the group-by leaves it out: every
    category of the output is a name of the fixed mapping, and the output is
    the one the stage gives once the products with such codes are removed. *)
Theorem national_share_drops_unmapped hs es ps (w : world A) :
  fst (compute_national_share hs es ps w) = Ok tt /\
  (forall g, g ∈ national_share hs es ps ->
     exists c : string, coicop_mapping !! c = Some (fst g)) /\
  national_share hs es ps = national_share hs es (filter mapped ps).
Proof.
  split; [apply compute_national_share_ok|].
  split; [apply national_share_categories|].
  unfold national_share. by rewrite national_expenditure_mapped_only.
Qed.

End NationalShareFacts.


(** C4, the claim as stated fails: the second expense row is for a product
    of code 13.  The output has the one bucket of the first row, with a share
    of 100 percent: the 30 units of the second row are in no bucket, and not
    in the total either. *)
Lemma unmapped_code_has_no_bucket :
  coicop_category (CodeInt 13) = None /\
  national_share [household_f 1 1 1]
    [expense_f 1 7 10; expense_f 1 8 30]
    [product 7 (CodeInt 1); product 8 (CodeInt 13)]
  = [("FOOD AND NON-ALCOHOLIC BEVERAGES"%string, 100%float)] /\
  fst (compute_national_share [household_f 1 1 1]
         [expense_f 1 7 10; expense_f 1 8 30]
         [product 7 (CodeInt 1); product 8 (CodeInt 13)] empty_world) = Ok tt.
Proof. split; [|split]; vm_compute; reflexivity. Qed.

(** ** The laws of the numbers *)

(** A total that is zero, of either sign. *)
Definition zero_number {A} `{Number A} (x : A) : Prop :=
  isnan x = false /\ nltb x (of_Z 0) = false /\ nltb (of_Z 0) x = false.

(** What [np.isfinite] refuses: NaN and the two infinities. *)
Definition non_finite {A} `{Number A} (x : A) : Prop :=
  isnan x = true \/ nabs x = infinity.

(** A number that is not below zero; it may be an infinity. *)
Definition not_negative {A} `{Number A} (x : A) : Prop :=
  isnan x = false /\ nltb x (of_Z 0) = false.

(** A number strictly between the two infinities. *)
Definition finite_number {A} `{Number A} (x : A) : Prop :=
  nltb (nabs x) infinity = true.

(** What the properties below need of the numbers: [<] orders the numbers
    that are not NaN, an operation on NaN or on an infinity does not come
    back to a finite number, and adding, multiplying or dividing numbers
    that are not negative gives a number that is not negative, the sum not
    below its first term. *)
Class NumberLaws (A : Type) `{Number A} : Prop := {
  nltb_asym : forall x y : A, nltb x y = true -> nltb y x = false;
  nltb_neg_trans : forall x y z : A,
    nltb x y = true -> isnan z = false -> nltb z y = false ->
    nltb x z = true;
  isnan_infinity : isnan (infinity : A) = false;
  div_zero : forall x z : A, zero_number z -> non_finite (x / z)%num;
  mul_non_finite_l : forall x y : A, non_finite x -> non_finite (x * y)%num;
  mul_non_finite_r : forall x y : A, non_finite y -> non_finite (x * y)%num;
  div_non_finite : forall x y : A, non_finite x -> non_finite (x / y)%num;
  add_non_finite_r : forall s x : A, non_finite x -> non_finite (s + x)%num;
  rint_non_finite : forall x : A, non_finite x -> non_finite (rint x);
  add_not_negative : forall s q : A,
    not_negative s -> not_negative q ->
    isnan (s + q)%num = false /\ nltb (s + q)%num s = false;
  mul_not_negative : forall x y : A,
    finite_number x -> finite_number y ->
    nltb x (of_Z 0) = false -> nltb y (of_Z 0) = false ->
    not_negative (x * y)%num;
  div_not_negative : forall x z : A,
    not_negative x -> finite_number z -> nltb (of_Z 0) z = true ->
    not_negative (x / z)%num
}.

(** ** Binary64 satisfies the laws *)

Section Binary64.

(** A key whose lexicographic order is the order of the numbers. *)
Definition SFkey (f : spec_float) : Z * Z * Z :=
  match f with
  | S754_zero _ | S754_nan => (0, 0, 0)%Z
  | S754_infinity false => (2, 0, 0)%Z
  | S754_infinity true => (-2, 0, 0)%Z
  | S754_finite false m e => (1, e, Zpos m)%Z
  | S754_finite true m e => (-1, - e, Zneg m)%Z
  end.

Definition key_lt (a b : Z * Z * Z) : Prop :=
  (fst (fst a) < fst (fst b) \/
   (fst (fst a) = fst (fst b) /\
    (snd (fst a) < snd (fst b) \/
     (snd (fst a) = snd (fst b) /\ snd a < snd b))))%Z.

Lemma SFltb_key (a b : spec_float) :
  a <> S754_nan -> b <> S754_nan ->
  SFltb a b = true <-> key_lt (SFkey a) (SFkey b).
Proof.
  intros Ha Hb. unfold SFltb, key_lt.
  destruct a as [sa|sa| |sa ma ea], b as [sb|sb| |sb mb eb]; try congruence;
    try destruct sa; try destruct sb; simpl; try (split; [discriminate|lia]);
    try (split; [lia|reflexivity]);
    change (Pos.compare_cont Eq ma mb) with (Pos.compare ma mb);
    destruct (Z.compare_spec ea eb); destruct (Pos.compare_spec ma mb);
    simpl; split; try discriminate; try reflexivity; lia.
Qed.

Lemma SFltb_not_nan (a b : spec_float) :
  SFltb a b = true -> a <> S754_nan /\ b <> S754_nan.
Proof. by destruct a, b. Qed.

Lemma is_nan_spec (x : float) :
  PrimFloat.is_nan x = true <-> Prim2SF x = S754_nan.
Proof.
  unfold PrimFloat.is_nan. rewrite FloatAxioms.eqb_spec. unfold SFeqb.
  destruct (Prim2SF x) as [s|s| |s m e]; simpl.
  - by split.
  - destruct s; by split.
  - by split.
  - destruct s; rewrite Z.compare_refl, Pos.compare_cont_refl; by split.
Qed.

Lemma is_nan_false (x : float) :
  PrimFloat.is_nan x = false <-> Prim2SF x <> S754_nan.
Proof. rewrite <- is_nan_spec. by destruct (PrimFloat.is_nan x). Qed.

Lemma float_ltb_asym (x y : float) :
  PrimFloat.ltb x y = true -> PrimFloat.ltb y x = false.
Proof.
  rewrite !FloatAxioms.ltb_spec. intros Hlt.
  destruct (SFltb_not_nan _ _ Hlt) as [Hx Hy].
  apply SFltb_key in Hlt; [|done..].
  destruct (SFltb (Prim2SF y) (Prim2SF x)) eqn:Hgt; [|done].
  apply SFltb_key in Hgt; [|done..]. unfold key_lt in *. lia.
Qed.

Lemma float_ltb_neg_trans (x y z : float) :
  PrimFloat.ltb x y = true -> PrimFloat.is_nan z = false ->
  PrimFloat.ltb z y = false -> PrimFloat.ltb x z = true.
Proof.
  rewrite !FloatAxioms.ltb_spec, is_nan_false. intros Hlt Hz Hge.
  destruct (SFltb_not_nan _ _ Hlt) as [Hx Hy].
  apply SFltb_key in Hlt; [|done..]. apply SFltb_key; [done..|].
  assert (~ key_lt (SFkey (Prim2SF z)) (SFkey (Prim2SF y))) as Hnot.
  { intros Hk. apply SFltb_key in Hk; [|done..]. congruence. }
  unfold key_lt in *. lia.
Qed.

(** NaN and the infinities, by their representation. *)
Lemma float_non_finite (x : float) :
  non_finite x <->
  Prim2SF x = S754_nan \/ exists s, Prim2SF x = S754_infinity s.
Proof.
  unfold non_finite. simpl. rewrite is_nan_spec. split.
  - intros [Hnan|Hinf]; [by left|]. right.
    apply (f_equal Prim2SF) in Hinf. rewrite FloatAxioms.abs_spec in Hinf.
    destruct (Prim2SF x) as [s|s| |s m e]; try discriminate. by exists s.
  - intros [Hnan|[s Hinf]]; [by left|]. right.
    apply Prim2SF_inj. by rewrite FloatAxioms.abs_spec, Hinf.
Qed.

Lemma float_zero_number (z : float) :
  zero_number z -> exists s, Prim2SF z = S754_zero s.
Proof.
  unfold zero_number. simpl. rewrite is_nan_false, !FloatAxioms.ltb_spec.
  change (Prim2SF (float_of_Z 0)) with (S754_zero false).
  intros (Hnan & Hlt & Hgt).
  destruct (Prim2SF z) as [s|s| |s m e]; [by exists s|..|done|];
    by destruct s.
Qed.

Lemma float_div_zero (x z : float) :
  zero_number z -> non_finite (x / z)%float.
Proof.
  intros [s Hz]%float_zero_number. apply float_non_finite.
  rewrite FloatAxioms.div_spec, Hz.
  destruct (Prim2SF x) as [sx|sx| |sx mx ex]; simpl; eauto.
Qed.

Lemma float_mul_non_finite_l (x y : float) :
  non_finite x -> non_finite (x * y)%float.
Proof.
  rewrite !float_non_finite, FloatAxioms.mul_spec.
  intros [->|[s ->]]; [by left|].
  destruct (Prim2SF y) as [sy|sy| |sy my ey]; simpl; eauto.
Qed.

Lemma float_mul_non_finite_r (x y : float) :
  non_finite y -> non_finite (x * y)%float.
Proof.
  rewrite !float_non_finite, FloatAxioms.mul_spec.
  intros [->|[s ->]]; destruct (Prim2SF x) as [sx|sx| |sx mx ex];
    simpl; eauto.
Qed.

Lemma float_div_non_finite (x y : float) :
  non_finite x -> non_finite (x / y)%float.
Proof.
  rewrite !float_non_finite, FloatAxioms.div_spec.
  intros [->|[s ->]]; [by left|].
  destruct (Prim2SF y) as [sy|sy| |sy my ey]; simpl; eauto.
Qed.

Lemma float_add_non_finite_r (s x : float) :
  non_finite x -> non_finite (s + x)%float.
Proof.
  rewrite !float_non_finite, FloatAxioms.add_spec.
  intros [->|[sx ->]]; destruct (Prim2SF s) as [ss|ss| |ss ms es];
    simpl; eauto; destruct ss, sx; simpl; eauto.
Qed.

Lemma float_rint_non_finite (x : float) :
  non_finite x -> non_finite (float_rint x).
Proof.
  intros Hx. assert (float_rint x = x) as ->; [|done].
  unfold float_rint. rewrite FloatAxioms.ltb_spec, FloatAxioms.abs_spec.
  apply float_non_finite in Hx as [->|[s ->]]; [done|].
  by vm_compute.
Qed.

(** *** Rounding, from the specification of binary64 *)

Local Open Scope Z_scope.

Lemma digits2_pos_bounds (m : positive) :
  2 ^ (Zpos (digits2_pos m) - 1) <= Zpos m < 2 ^ Zpos (digits2_pos m).
Proof.
  induction m as [m IH|m IH|]; simpl digits2_pos.
  - rewrite Pos2Z.inj_succ.
    replace (Z.succ (Zpos (digits2_pos m)) - 1)
      with (Z.succ (Zpos (digits2_pos m) - 1)) by lia.
    rewrite !Z.pow_succ_r by lia. lia.
  - rewrite Pos2Z.inj_succ.
    replace (Z.succ (Zpos (digits2_pos m)) - 1)
      with (Z.succ (Zpos (digits2_pos m) - 1)) by lia.
    rewrite !Z.pow_succ_r by lia. lia.
  - simpl. lia.
Qed.

Lemma shr_1_spec (r : shr_record) :
  0 <= shr_m r -> shr_m (shr_1 r) = shr_m r / 2.
Proof.
  destruct r as [m r s]. simpl. intros Hm.
  rewrite <- Z.div2_div. destruct m as [|[p|p|]|p]; simpl; try reflexivity; lia.
Qed.

Lemma iter_shr_1_spec (n : positive) (r : shr_record) :
  0 <= shr_m r ->
  shr_m (SpecFloat.iter_pos shr_1 n r) = shr_m r / 2 ^ Zpos n.
Proof.
  revert r. induction n as [n IH|n IH|]; intros r Hr; simpl SpecFloat.iter_pos.
  - assert (0 <= shr_m (shr_1 r)) as H1.
    { rewrite shr_1_spec by done. apply Z.div_pos; lia. }
    assert (0 <= shr_m (SpecFloat.iter_pos shr_1 n (shr_1 r))) as H2.
    { rewrite IH by done. apply Z.div_pos; [done|]. apply Z.pow_pos_nonneg; lia. }
    rewrite IH, IH, shr_1_spec by done.
    assert (0 < 2 ^ Zpos n) by (apply Z.pow_pos_nonneg; lia).
    rewrite !Z.div_div by lia.
    f_equal.
    replace (Zpos n~1) with (1 + Zpos n + Zpos n) by lia.
    rewrite !Z.pow_add_r by lia. lia.
  - assert (0 <= shr_m (SpecFloat.iter_pos shr_1 n r)) as H2.
    { rewrite IH by done. apply Z.div_pos; [done|]. apply Z.pow_pos_nonneg; lia. }
    rewrite IH, IH by done.
    assert (0 < 2 ^ Zpos n) by (apply Z.pow_pos_nonneg; lia).
    rewrite !Z.div_div by lia.
    f_equal.
    replace (Zpos n~0) with (Zpos n + Zpos n) by lia.
    rewrite !Z.pow_add_r by lia. lia.
  - rewrite shr_1_spec by done. reflexivity.
Qed.

Lemma shr_spec (r : shr_record) (e n : Z) :
  0 <= shr_m r ->
  snd (shr r e n) = e + Z.max 0 n /\
  shr_m (fst (shr r e n)) = shr_m r / 2 ^ Z.max 0 n.
Proof.
  intros Hr. destruct n as [|p|p]; simpl.
  - split; [lia|]. by rewrite Z.div_1_r.
  - split; [lia|]. by apply iter_shr_1_spec.
  - split; [lia|]. by rewrite Z.div_1_r.
Qed.

Lemma shr_m_of_loc (m : Z) (l : location) :
  shr_m (shr_record_of_loc m l) = m.
Proof. by destruct l as [|[]]. Qed.

Lemma round_nearest_even_ge (m : Z) (l : location) :
  m <= round_nearest_even m l.
Proof.
  destruct l as [|[]]; simpl; try lia. destruct (Z.even m); lia.
Qed.


Lemma fexp_binary64 (e : Z) :
  fexp FloatOps.prec FloatOps.emax e = Z.max (e - 53) (-1074).
Proof. reflexivity. Qed.

Lemma div_pow_digits (p : positive) (n : Z) :
  0 <= n <= Zpos (digits2_pos p) - 1 -> 1 <= Zpos p / 2 ^ n.
Proof.
  intros Hn. apply Z.div_le_lower_bound; [apply Z.pow_pos_nonneg; lia|].
  pose proof (digits2_pos_bounds p) as [Hlow _].
  pose proof (Z.pow_le_mono_r 2 n (Zpos (digits2_pos p) - 1)). lia.
Qed.

Lemma shr_fexp_spec (m e : Z) (l : location) :
  0 <= m ->
  snd (shr_fexp FloatOps.prec FloatOps.emax m e l)
  = e + Z.max 0 (fexp FloatOps.prec FloatOps.emax (Zdigits2 m + e) - e) /\
  shr_m (fst (shr_fexp FloatOps.prec FloatOps.emax m e l))
  = m / 2 ^ Z.max 0 (fexp FloatOps.prec FloatOps.emax (Zdigits2 m + e) - e).
Proof.
  intros Hm. unfold shr_fexp.
  pose proof (shr_spec (shr_record_of_loc m l) e
                (fexp FloatOps.prec FloatOps.emax (Zdigits2 m + e) - e)) as H.
  rewrite shr_m_of_loc in H. by apply H.
Qed.

(** Rounding a mantissa that is not negative gives a zero, a finite number
    or an infinity of the sign asked for. *)
Lemma binary_round_aux_sign (s : bool) (m e : Z) (l : location) :
  0 <= m ->
  binary_round_aux FloatOps.prec FloatOps.emax s m e l = S754_zero s \/
  binary_round_aux FloatOps.prec FloatOps.emax s m e l = S754_infinity s \/
  exists m' e',
    binary_round_aux FloatOps.prec FloatOps.emax s m e l = S754_finite s m' e'.
Proof.
  intros Hm. unfold binary_round_aux.
  pose proof (shr_fexp_spec m e l Hm) as [_ H1].
  destruct (shr_fexp FloatOps.prec FloatOps.emax m e l) as [r1 e1].
  simpl in H1.
  assert (0 <= shr_m r1) as Hr1.
  { rewrite H1. apply Z.div_pos; [done|]. apply Z.pow_pos_nonneg; lia. }
  pose proof (round_nearest_even_ge (shr_m r1) (loc_of_shr_record r1)) as Hge.
  set (m2 := round_nearest_even (shr_m r1) (loc_of_shr_record r1)) in *.
  assert (0 <= m2) as Hm2 by lia.
  pose proof (shr_fexp_spec m2 e1 loc_Exact Hm2) as [_ H2].
  destruct (shr_fexp FloatOps.prec FloatOps.emax m2 e1 loc_Exact) as [r2 e2].
  simpl in H2.
  assert (0 <= shr_m r2) as Hr2.
  { rewrite H2. apply Z.div_pos; [done|]. apply Z.pow_pos_nonneg; lia. }
  destruct (shr_m r2) as [|p|p]; [by left| |lia].
  destruct (e2 <=? FloatOps.emax - FloatOps.prec); eauto.
Qed.

(** Rounding the exact sum of two positive numbers does not go below
    either of them: [ms, es] is one of the two, [M, ez] the sum at the
    smaller exponent. *)
Lemma binary_round_aux_ge (M ms : positive) (ez es : Z) :
  -1074 <= ez -> ez <= es ->
  es <= fexp FloatOps.prec FloatOps.emax (Zpos (digits2_pos M) + ez) ->
  Zpos ms * 2 ^ (es - ez) <= Zpos M ->
  binary_round_aux FloatOps.prec FloatOps.emax false (Zpos M) ez loc_Exact
  = S754_infinity false \/
  exists m' e',
    binary_round_aux FloatOps.prec FloatOps.emax false (Zpos M) ez loc_Exact
    = S754_finite false m' e' /\
    (es < e' \/ (e' = es /\ Zpos ms <= Zpos m')).
Proof.
  intros Hmin Hle Hfe HM. unfold binary_round_aux.
  pose proof (shr_fexp_spec (Zpos M) ez loc_Exact ltac:(lia)) as [He1 H1].
  destruct (shr_fexp FloatOps.prec FloatOps.emax (Zpos M) ez loc_Exact)
    as [r1 e1].
  simpl in He1, H1. simpl Zdigits2 in *.
  set (d := Zpos (digits2_pos M)) in *.
  set (fe := fexp FloatOps.prec FloatOps.emax (d + ez)) in *.
  assert (fe = Z.max (d + ez - 53) (-1074)) as Hfe_eq by apply fexp_binary64.
  rewrite Z.max_r in He1, H1 by lia.
  assert (e1 = fe) as -> by lia.
  assert (1 <= shr_m r1) as Hr1.
  { rewrite H1. apply div_pow_digits. fold d. lia. }
  pose proof (round_nearest_even_ge (shr_m r1) (loc_of_shr_record r1)) as Hge.
  set (m2 := round_nearest_even (shr_m r1) (loc_of_shr_record r1)) in *.
  pose proof (shr_fexp_spec m2 fe loc_Exact ltac:(lia)) as [He2 H2].
  destruct (shr_fexp FloatOps.prec FloatOps.emax m2 fe loc_Exact) as [r2 e2].
  simpl in He2, H2.
  destruct m2 as [|p2|p2] eqn:Hm2; [lia| |lia].
  simpl Zdigits2 in *.
  set (d2 := Zpos (digits2_pos p2)) in *.
  pose proof (fexp_binary64 (d2 + fe)) as Hfe2.
  set (n2 := fexp FloatOps.prec FloatOps.emax (d2 + fe) - fe) in *.
  assert (1 <= shr_m r2) as Hr2.
  { rewrite H2. apply div_pow_digits. fold d2. lia. }
  destruct (shr_m r2) as [|p|p] eqn:Hp; [lia| |lia].
  destruct (e2 <=? FloatOps.emax - FloatOps.prec); [|by left].
  right. exists p, e2. split; [done|].
  destruct (decide (es < e2)) as [|Hnot]; [by left|right].
  assert (Z.max 0 n2 = 0) as Hn0 by lia.
  assert (fe = es) as Hfes by lia.
  split; [lia|].
  rewrite Hn0, Z.div_1_r in H2. 
  assert (Zpos ms <= shr_m r1); [|lia].
  rewrite H1. apply Z.div_le_lower_bound; [apply Z.pow_pos_nonneg; lia|].
  rewrite Hfes. lia.
Qed.


Lemma iter_xO_value (m d : positive) :
  Zpos (Pos.iter xO m d) = Zpos m * 2 ^ Zpos d.
Proof.
  induction d as [|d IH] using Pos.peano_ind.
  - simpl. lia.
  - rewrite Pos.iter_succ, Pos2Z.inj_succ, Z.pow_succ_r by lia.
    rewrite Pos2Z.inj_xO, IH. lia.
Qed.

Lemma shl_align_value (m : positive) (e e' : Z) :
  e' <= e -> Zpos (fst (shl_align m e e')) = Zpos m * 2 ^ (e - e').
Proof.
  unfold shl_align. intros Hle. destruct (e' - e) as [|d|d] eqn:Hd; simpl.
  - replace (e - e') with 0 by lia. lia.
  - lia.
  - rewrite iter_xO_value. do 2 f_equal. lia.
Qed.

Lemma bounded_canonical (m : positive) (e : Z) :
  bounded FloatOps.prec FloatOps.emax m e = true ->
  e = Z.max (Zpos (digits2_pos m) + e - 53) (-1074).
Proof.
  unfold bounded, canonical_mantissa. intros [Hc _]%andb_prop.
  apply Z.eqb_eq in Hc. by rewrite fexp_binary64 in Hc.
Qed.

(** The sum of two positive finite numbers is positive and not below the
    first of them. *)
Lemma SFadd_positive_ge (ms mq : positive) (es eq : Z) :
  bounded FloatOps.prec FloatOps.emax ms es = true ->
  bounded FloatOps.prec FloatOps.emax mq eq = true ->
  SF64add (S754_finite false ms es) (S754_finite false mq eq)
  = S754_infinity false \/
  exists m' e',
    SF64add (S754_finite false ms es) (S754_finite false mq eq)
    = S754_finite false m' e' /\
    (es < e' \/ (e' = es /\ Zpos ms <= Zpos m')).
Proof.
  intros Hs%bounded_canonical Hq%bounded_canonical.
  unfold SF64add, SFadd, cond_Zopp.
  set (ez := Z.min es eq).
  pose proof (shl_align_value ms es ez ltac:(lia)) as Ha.
  pose proof (shl_align_value mq eq ez ltac:(lia)) as Hb.
  set (a := fst (shl_align ms es ez)) in *.
  set (b := fst (shl_align mq eq ez)) in *.
  change (Zpos a + Zpos b) with (Zpos (a + b)).
  unfold binary_normalize, binary_round.
  set (d := Zpos (digits2_pos (a + b))).
  assert (Zpos (digits2_pos ms) + es <= d + ez) as Hdigits.
  { pose proof (digits2_pos_bounds ms) as [Hlow _].
    pose proof (digits2_pos_bounds (a + b)) as [_ Hup]. fold d in Hup.
    assert (0 < 2 ^ (es - ez)) by (apply Z.pow_pos_nonneg; lia).
    assert (2 ^ (Zpos (digits2_pos ms) - 1 + (es - ez)) < 2 ^ d) as Hlt.
    { rewrite Z.pow_add_r by lia. nia. }
    apply Z.pow_lt_mono_r_iff in Hlt; lia. }
  assert (es <= fexp FloatOps.prec FloatOps.emax (d + ez)) as Hfe.
  { rewrite fexp_binary64. lia. }
  assert (shl_align (a + b) ez (fexp FloatOps.prec FloatOps.emax (d + ez))
          = ((a + b)%positive, ez)) as ->.
  { unfold shl_align.
    destruct (fexp FloatOps.prec FloatOps.emax (d + ez) - ez) eqn:Hd;
      [done|done|lia]. }
  apply binary_round_aux_ge; [lia|lia|done|].
  rewrite Pos2Z.inj_add, Ha. lia.
Qed.

Lemma SFdiv_core_not_negative (m1 m2 : positive) (e1 e2 : Z) :
  0 <= fst (fst (SFdiv_core_binary FloatOps.prec FloatOps.emax
                   (Zpos m1) e1 (Zpos m2) e2)).
Proof.
  unfold SFdiv_core_binary.
  set (s := _ - _ - _).
  set (m' := match s with Z0 => Zpos m1 | Zpos _ => Z.shiftl (Zpos m1) s
             | Zneg _ => 0 end).
  assert (0 <= m') as Hm'.
  { unfold m'. destruct s; [lia| |lia]. by apply Z.shiftl_nonneg. }
  assert (0 <= m' / Zpos m2) as Hq by (apply Z.div_pos; lia).
  unfold Z.div in Hq. by destruct (Z.div_eucl m' (Zpos m2)).
Qed.

Local Close Scope Z_scope.

(** *** The numbers that are not negative *)

Lemma float_not_negative (x : float) :
  not_negative x ->
  (exists s, Prim2SF x = S754_zero s) \/
  Prim2SF x = S754_infinity false \/
  exists m e, Prim2SF x = S754_finite false m e /\
              bounded FloatOps.prec FloatOps.emax m e = true.
Proof.
  unfold not_negative. simpl.
  rewrite is_nan_false, FloatAxioms.ltb_spec.
  change (Prim2SF (float_of_Z 0)) with (S754_zero false).
  pose proof (Prim2SF_valid x) as Hvalid. intros [Hnan Hlt].
  destruct (Prim2SF x) as [s|s| |s m e]; [eauto| |done|];
    destruct s; try discriminate Hlt.
  - right. by left.
  - right. right. by exists m, e.
Qed.

Lemma float_is_not_negative (x : float) :
  (exists s, Prim2SF x = S754_zero s) \/
  Prim2SF x = S754_infinity false \/
  (exists m e, Prim2SF x = S754_finite false m e) ->
  not_negative x.
Proof.
  unfold not_negative. simpl.
  rewrite is_nan_false, FloatAxioms.ltb_spec.
  change (Prim2SF (float_of_Z 0)) with (S754_zero false).
  by intros [[s ->]|[->|(m & e & ->)]].
Qed.

Lemma float_finite_number (x : float) :
  finite_number x ->
  (exists s, Prim2SF x = S754_zero s) \/
  exists s m e, Prim2SF x = S754_finite s m e.
Proof.
  unfold finite_number. simpl.
  rewrite FloatAxioms.ltb_spec, FloatAxioms.abs_spec.
  change (Prim2SF PrimFloat.infinity) with (S754_infinity false).
  destruct (Prim2SF x) as [s|s| |s m e]; try done; eauto.
Qed.

Lemma float_add_not_negative (s q : float) :
  not_negative s -> not_negative q ->
  PrimFloat.is_nan (s + q) = false /\ PrimFloat.ltb (s + q) s = false.
Proof.
  intros Hs%float_not_negative Hq%float_not_negative.
  rewrite is_nan_false, FloatAxioms.ltb_spec, FloatAxioms.add_spec.
  destruct Hs as [[ss ->]|[->|(ms & es & -> & Hbs)]];
    destruct Hq as [[sq ->]|[->|(mq & eq & -> & Hbq)]].
  - by destruct ss, sq.
  - by destruct ss.
  - by destruct ss.
  - done.
  - done.
  - done.
  - split; [done|]. unfold SFltb. simpl.
    by rewrite Z.compare_refl, Pos.compare_cont_refl.
  - done.
  - destruct (SFadd_positive_ge ms mq es eq Hbs Hbq)
      as [->|(m' & e' & -> & Horder)]; [done|].
    split; [done|].
    destruct (SFltb (S754_finite false m' e') (S754_finite false ms es))
      eqn:Hlt; [|done].
    apply SFltb_key in Hlt; [|done..]. unfold key_lt in Hlt. simpl in Hlt.
    lia.
Qed.

Lemma float_mul_not_negative (x y : float) :
  finite_number x -> finite_number y ->
  PrimFloat.ltb x (float_of_Z 0) = false ->
  PrimFloat.ltb y (float_of_Z 0) = false ->
  not_negative (x * y)%float.
Proof.
  intros Hx%float_finite_number Hy%float_finite_number.
  rewrite !FloatAxioms.ltb_spec.
  change (Prim2SF (float_of_Z 0)) with (S754_zero false).
  intros Hx0 Hy0. apply float_is_not_negative.
  rewrite FloatAxioms.mul_spec.
  destruct Hx as [[sx Hx]|(sx & mx & ex & Hx)];
    destruct Hy as [[sy Hy]|(sy & my & ey & Hy)];
    rewrite Hx in Hx0 |- *; rewrite Hy in Hy0 |- *;
    [simpl; eauto..|].
  destruct sx; [discriminate Hx0|]. destruct sy; [discriminate Hy0|].
  unfold SF64mul, SFmul, xorb.
  destruct (binary_round_aux_sign false (Zpos (mx * my)) (ex + ey)%Z
              loc_Exact)
    as [->|[->|(m' & e' & ->)]]; [lia|eauto..].
Qed.

Lemma float_div_not_negative (x z : float) :
  not_negative x -> finite_number z ->
  PrimFloat.ltb (float_of_Z 0) z = true ->
  not_negative (x / z)%float.
Proof.
  intros Hx%float_not_negative Hz%float_finite_number.
  rewrite FloatAxioms.ltb_spec.
  change (Prim2SF (float_of_Z 0)) with (S754_zero false).
  intros Hz0. apply float_is_not_negative.
  rewrite FloatAxioms.div_spec.
  destruct Hz as [[sz Hz]|(sz & mz & ez & Hz)]; rewrite Hz in Hz0 |- *;
    [discriminate Hz0|]. destruct sz; [discriminate Hz0|].
  destruct Hx as [[sx ->]|[->|(mx & ex & -> & _)]]; [simpl; eauto..|].
  unfold SF64div, SFdiv, xorb.
  pose proof (SFdiv_core_not_negative mx mz ex ez) as Hq.
  destruct (SFdiv_core_binary FloatOps.prec FloatOps.emax
              (Zpos mx) ex (Zpos mz) ez) as [[q e'] l].
  simpl in Hq.
  destruct (binary_round_aux_sign false q e' l Hq)
    as [->|[->|(m' & e'' & ->)]]; eauto.
Qed.

#[export] Instance float_laws : NumberLaws float.
Proof.
  split.
  - exact float_ltb_asym.
  - exact float_ltb_neg_trans.
  - reflexivity.
  - exact float_div_zero.
  - exact float_mul_non_finite_l.
  - exact float_mul_non_finite_r.
  - exact float_div_non_finite.
  - exact float_add_non_finite_r.
  - exact float_rint_non_finite.
  - exact float_add_not_negative.
  - exact float_mul_not_negative.
  - exact float_div_not_negative.
Qed.

End Binary64.

(** ** Sorting *)

Section SortFacts.
Context {A : Type} `{NumberLaws A}.

Lemma key_le_total (x y : A) : key_le x y = true \/ key_le y x = true.
Proof.
  unfold key_le.
  destruct (isnan y) eqn:Hy; [by left|]. destruct (isnan x) eqn:Hx; [by right|].
  simpl. destruct (nltb y x) eqn:Hyx; [right|by left].
  by rewrite (nltb_asym _ _ Hyx).
Qed.

Lemma key_le_trans (x y z : A) :
  key_le x y = true -> key_le y z = true -> key_le x z = true.
Proof.
  unfold key_le. destruct (isnan z) eqn:Hz; [done|]. simpl.
  destruct (isnan y) eqn:Hy; [done|]. simpl.
  destruct (isnan x) eqn:Hx; [done|]. simpl.
  destruct (nltb y x) eqn:Hyx; [done|]. destruct (nltb z y) eqn:Hzy; [done|].
  intros _ _. destruct (nltb z x) eqn:Hzx; [|done].
  by rewrite (nltb_neg_trans z x y Hzx Hy Hyx) in Hzy.
Qed.

Context {R : Type} (key : R -> A).

Lemma sorted_insert_perm (r : R) (l : list R) :
  Permutation (sorted_insert key r l) (r :: l).
Proof.
  induction l as [|r' l IH]; simpl; [done|].
  destruct (key_le (key r) (key r')); [done|].
  rewrite IH. apply perm_swap.
Qed.

Lemma sorted_insert_sorted (r : R) (l : list R) :
  StronglySorted (fun a b => key_le (key a) (key b) = true) l ->
  StronglySorted (fun a b => key_le (key a) (key b) = true)
    (sorted_insert key r l).
Proof.
  induction 1 as [|r' l Hs IH Hall]; simpl.
  - by repeat constructor.
  - destruct (key_le (key r) (key r')) eqn:Hle.
    + constructor; [by constructor|]. constructor; [done|].
      eapply Forall_impl; [exact Hall|]. simpl. intros x Hx.
      by apply (key_le_trans _ (key r')).
    + constructor; [done|].
      assert (key_le (key r') (key r) = true) as Hge.
      { destruct (key_le_total (key r) (key r')); congruence. }
      rewrite (sorted_insert_perm r l). by constructor.
Qed.

Lemma stable_sort_perm (l : list R) : Permutation (stable_sort key l) l.
Proof.
  induction l as [|r l IH]; simpl; [done|].
  rewrite sorted_insert_perm. by constructor.
Qed.

Lemma stable_sort_sorted (l : list R) :
  StronglySorted (fun a b => key_le (key a) (key b) = true) (stable_sort key l).
Proof.
  induction l as [|r l IH]; simpl; [constructor|].
  by apply sorted_insert_sorted.
Qed.

End SortFacts.

(** The reference sort meets the contract of [sort_values]. *)
Lemma stable_sort_sorts_values {A : Type} `{NumberLaws A} :
  sorts_values (@stable_sort A _).
Proof.
  intros R key l. split; [apply stable_sort_perm|apply stable_sort_sorted].
Qed.

(** ** The nearest point to one half *)


(** The distances to one half that [np.argmin] compares. *)
Definition distances {A} `{Number A} (t : list (Lorenz.row A)) : list A :=
  map (fun c => nabs (c - half)%num) (cum_pop t).

(** The line that reports the share of the bottom half. *)
Definition fifty_line {A} (share : A) : printed A :=
  Line [Lit "The bottom 50% of the population contributes a ";
        Val share; Lit "% of the total expenditure"].

Section Nearest.
Context {A : Type} `{NumberLaws A}.





End Nearest.

Section LorenzLengths.
Context {A : Type} `{Number A}.

Lemma length_accumulate (acc : A) (xs : list A) :
  length (accumulate acc xs) = length xs.
Proof.
  revert acc. induction xs as [|x xs IH]; intros acc; simpl; [done|].
  by rewrite IH.
Qed.

Lemma length_series_cumsum (xs : list A) :
  length (series_cumsum xs) = length xs.
Proof.
  unfold series_cumsum. rewrite length_zip_with.
  assert (length (np_cumsum (map (fun x => if isnan x then of_Z 0 else x) xs))
          = length xs) as ->; [|lia].
  destruct xs as [|x xs]; simpl; [done|].
  by rewrite length_accumulate, length_map.
Qed.

Lemma length_cum_pop (t : list (Lorenz.row A)) :
  length (cum_pop t) = length t.
Proof. unfold cum_pop. by rewrite length_series_cumsum, !length_map. Qed.

Lemma length_cum_exp (t : list (Lorenz.row A)) :
  length (cum_exp t) = length t.
Proof. unfold cum_exp. by rewrite length_series_cumsum, !length_map. Qed.

Lemma length_distances (t : list (Lorenz.row A)) :
  length (distances t) = length t.
Proof. unfold distances. by rewrite length_map, length_cum_pop. Qed.


(** The position [np.argmin] returns is a position of the array. *)
Lemma argmin_from_lt (best : nat * A) (i : nat) (xs : list A) :
  (fst best < i)%nat -> (argmin_from best i xs < i + length xs)%nat.
Proof.
  revert best i. induction xs as [|x xs IH]; intros best i Hlt; simpl; [lia|].
  destruct (nltb x (snd best)).
  - specialize (IH (i, x) (S i)). simpl in IH. lia.
  - specialize (IH best (S i)). lia.
Qed.

Lemma series_argmin_lt (ds : list A) (i : nat) :
  series_argmin ds = Some i -> (i < length ds)%nat.
Proof.
  unfold series_argmin. destruct (forallb isnan ds); [done|].
  destruct ds as [|d ds]; [done|]. simpl. intros [= <-].
  pose proof (argmin_from_lt (0%nat, if isnan d then infinity else d) 1
                (map (fun x => if isnan x then infinity else x) ds)) as Hlt.
  rewrite length_map in Hlt. simpl in Hlt. lia.
Qed.

Lemma forallb_isnan_false (ds : list A) :
  forallb isnan ds = false <-> exists d, d ∈ ds /\ isnan d = false.
Proof.
  induction ds as [|d ds IH]; simpl.
  - split; [done|]. by intros (d & ?%elem_of_nil & _).
  - rewrite andb_false_iff, IH. split.
    + intros [Hd|(d' & Hin & Hd')].
      * exists d. split; [apply list_elem_of_here|done].
      * exists d'. split; [by apply list_elem_of_further|done].
    + intros (d' & Hin & Hd'). apply elem_of_cons in Hin as [->|Hin]; eauto.
Qed.

Lemma series_argmin_defined (ds : list A) :
  is_Some (series_argmin ds) <-> exists d, d ∈ ds /\ isnan d = false.
Proof.
  rewrite <- forallb_isnan_false. unfold series_argmin.
  destruct (forallb isnan ds) eqn:Hall.
  - split; [by intros [? ?]|done].
  - split; [done|]. intros _. destruct ds as [|d ds]; [done|]. by eexists.
Qed.

(** The report exists exactly when [np.argmin] has a value to compare:
    some cumulative population share is not NaN. *)
Lemma fifty_percentile_share_defined (t : list (Lorenz.row A)) :
  is_Some (fifty_percentile_share t) <->
  exists d, d ∈ distances t /\ isnan d = false.
Proof.
  rewrite <- series_argmin_defined.
  unfold fifty_percentile_share, nearest_fifty. fold (distances t).
  destruct (series_argmin (distances t)) as [i|] eqn:Harg; simpl.
  - split; [by eexists|]. intros _.
    apply series_argmin_lt in Harg. rewrite length_distances in Harg.
    rewrite <- (length_cum_exp t) in Harg.
    destruct (lookup_lt_is_Some_2 _ _ Harg) as [y ->]. by eexists.
  - split; by intros [? ?].
Qed.

End LorenzLengths.

(** * Further properties of the stages *)

(** ** Groups in ascending order of their keys *)

Section GroupOrder.
Context {A : Type} `{Number A} {K : Type} `{EqDecision K}.
Variable klt : K -> K -> bool.
Hypothesis klt_irrefl : forall k, klt k k = false.
Hypothesis klt_trans :
  forall a b c, klt a b = true -> klt b c = true -> klt a c = true.
Hypothesis klt_total :
  forall a b, a <> b -> klt a b = false -> klt b a = true.

Definition keys_ascending {V : Type} (groups : list (K * V)) : Prop :=
  StronglySorted (fun a b => klt a b = true) (map fst groups).

Lemma group_add_ascending (k : K) (v : A) (groups : list (K * (A * A))) :
  keys_ascending groups -> keys_ascending (group_add klt k v groups).
Proof.
  unfold keys_ascending. induction groups as [|[k' s] groups IH]; simpl.
  - intros _. by repeat constructor.
  - intros Hs. apply StronglySorted_inv in Hs as [Hs Hall].
    destruct (decide (k = k')) as [->|Hne]; simpl; [by constructor|].
    destruct (klt k k') eqn:Hlt; simpl.
    + constructor; [by constructor|]. constructor; [done|].
      eapply Forall_impl; [exact Hall|]. simpl. intros k0 Hk0.
      by apply (klt_trans _ k').
    + constructor; [by apply IH|]. apply Forall_forall. intros k0 Hk0.
      apply elem_of_group_add in Hk0 as [->|Hk0].
      * by apply klt_total.
      * rewrite Forall_forall in Hall. by apply Hall.
Qed.

Lemma group_sums_ascending (rows : list (option K * A)) :
  keys_ascending (group_sums klt rows).
Proof.
  unfold group_sums.
  assert (keys_ascending (@nil (K * (A * A)))) as Hnil by constructor.
  revert Hnil. generalize (@nil (K * (A * A))).
  induction rows as [|[k v] rows IH]; intros groups Hg; simpl; [done|].
  apply IH. destruct k as [k|]; [|done]. by apply group_add_ascending.
Qed.

Lemma groupby_sum_ascending (rows : list (option K * A)) :
  keys_ascending (groupby_sum klt rows).
Proof.
  unfold keys_ascending. rewrite groupby_sum_keys. apply group_sums_ascending.
Qed.

Lemma ascending_NoDup (ks : list K) :
  StronglySorted (fun a b => klt a b = true) ks -> NoDup ks.
Proof.
  induction 1 as [|k ks Hs IH Hall]; constructor; [|done].
  intros Hin. rewrite Forall_forall in Hall. specialize (Hall k Hin).
  by rewrite klt_irrefl in Hall.
Qed.

Lemma groupby_sum_NoDup (rows : list (option K * A)) :
  NoDup (map fst (groupby_sum klt rows)).
Proof. apply ascending_NoDup, groupby_sum_ascending. Qed.

End GroupOrder.

Section KeyOrders.

Lemma Zltb_irrefl (k : Z) : Z.ltb k k = false.
Proof. apply Z.ltb_irrefl. Qed.

Lemma Zltb_trans (a b c : Z) :
  Z.ltb a b = true -> Z.ltb b c = true -> Z.ltb a c = true.
Proof. rewrite !Z.ltb_lt. lia. Qed.

Lemma Zltb_total (a b : Z) : a <> b -> Z.ltb a b = false -> Z.ltb b a = true.
Proof. rewrite Z.ltb_lt, Z.ltb_ge. lia. Qed.

Lemma string_ltb_lt (a b : string) :
  String.ltb a b = true <-> String.compare a b = Lt.
Proof. unfold String.ltb. by destruct (String.compare a b). Qed.

Lemma string_ltb_irrefl (k : string) : String.ltb k k = false.
Proof.
  destruct (String.ltb k k) eqn:Hlt; [|done].
  apply string_ltb_lt in Hlt. pose proof (String.compare_antisym k k) as Ha.
  rewrite Hlt in Ha. discriminate.
Qed.

Lemma string_ltb_trans (a b c : string) :
  String.ltb a b = true -> String.ltb b c = true -> String.ltb a c = true.
Proof.
  rewrite !string_ltb_lt. intros Hab Hbc.
  apply OrderedTypeEx.String_as_OT.cmp_lt.
  apply OrderedTypeEx.String_as_OT.cmp_lt in Hab, Hbc.
  by apply (OrderedTypeEx.String_as_OT.lt_trans _ b).
Qed.

Lemma string_ltb_total (a b : string) :
  a <> b -> String.ltb a b = false -> String.ltb b a = true.
Proof.
  intros Hne Hlt. apply string_ltb_lt. rewrite String.compare_antisym.
  destruct (String.compare a b) eqn:Hc; simpl.
  - by apply String.compare_eq_iff in Hc.
  - apply string_ltb_lt in Hc. congruence.
  - done.
Qed.

End KeyOrders.

(** ** A group-by and a selection of keys *)

Section GroupFilter.
Context {A : Type} `{Number A} {K : Type} `{EqDecision K}.
Variable klt : K -> K -> bool.
Hypothesis klt_irrefl : forall k, klt k k = false.
Hypothesis klt_trans :
  forall a b c, klt a b = true -> klt b c = true -> klt a c = true.
Hypothesis klt_total :
  forall a b, a <> b -> klt a b = false -> klt b a = true.
Variable P : K -> Prop.
Context `{forall k, Decision (P k)}.

Lemma group_add_before (k : K) (v : A) (groups : list (K * (A * A))) :
  Forall (fun k' => klt k k' = true) (map fst groups) ->
  group_add klt k v groups
  = (k, group_sum_step (of_Z 0, of_Z 0) v) :: groups.
Proof.
  destruct groups as [|[k' s] groups]; [done|]. simpl. intros Hall.
  apply Forall_inv in Hall. destruct (decide (k = k')) as [->|_].
  - by rewrite klt_irrefl in Hall.
  - by rewrite Hall.
Qed.

Lemma group_add_filter_in (k : K) (v : A) (groups : list (K * (A * A))) :
  keys_ascending klt groups -> P k ->
  group_add klt k v (filter (fun g => P (fst g)) groups)
  = filter (fun g => P (fst g)) (group_add klt k v groups).
Proof.
  unfold keys_ascending. intros Hs HP.
  induction groups as [|[k' s] groups IH]; simpl.
  - rewrite filter_cons. simpl. by rewrite decide_True.
  - simpl in Hs. apply StronglySorted_inv in Hs as [Hs Hall].
    destruct (decide (k = k')) as [->|Hne].
    + rewrite !filter_cons. simpl. rewrite !decide_True by done. simpl.
      by rewrite decide_True.
    + destruct (klt k k') eqn:Hlt.
      * rewrite (filter_cons _ (k, _)). simpl. rewrite decide_True by done.
        apply group_add_before. apply Forall_forall. intros k0 Hk0.
        apply list_elem_of_fmap in Hk0 as ([k1 s1] & -> & Hin).
        apply list_elem_of_filter in Hin as [_ Hin]. simpl.
        apply elem_of_cons in Hin as [[= -> ->]|Hin]; [done|].
        apply (klt_trans _ k'); [done|]. rewrite Forall_forall in Hall.
        apply Hall. apply list_elem_of_fmap. by exists (k1, s1).
      * rewrite !(filter_cons _ (k', s)). simpl.
        destruct (decide (P k')); simpl.
        -- rewrite decide_False by done. rewrite Hlt. by rewrite IH.
        -- by apply IH.
Qed.

Lemma group_add_filter_out (k : K) (v : A) (groups : list (K * (A * A))) :
  ~ P k ->
  filter (fun g => P (fst g)) (group_add klt k v groups)
  = filter (fun g => P (fst g)) groups.
Proof.
  intros HP. induction groups as [|[k' s] groups IH]; simpl.
  - rewrite filter_cons. simpl. by rewrite decide_False.
  - destruct (decide (k = k')) as [->|Hne].
    + rewrite !filter_cons. simpl. by rewrite !decide_False.
    + destruct (klt k k').
      * rewrite (filter_cons _ (k, _)). simpl. by rewrite decide_False.
      * rewrite !(filter_cons _ (k', s)). simpl. by rewrite IH.
Qed.

(** The rows a selection of keys keeps. *)
Definition key_selected (r : option K * A) : Prop :=
  match fst r with Some k => P k | None => False end.

#[global] Instance key_selected_dec r : Decision (key_selected r).
Proof. unfold key_selected. destruct (fst r); apply _. Defined.

Lemma group_sums_filter (rows : list (option K * A)) :
  group_sums klt (filter key_selected rows)
  = filter (fun g => P (fst g)) (group_sums klt rows).
Proof.
  unfold group_sums.
  assert (forall groups, keys_ascending klt groups ->
    fold_left
      (fun groups row =>
         match fst row with
         | None => groups
         | Some k => group_add klt k (snd row) groups
         end) (filter key_selected rows) (filter (fun g => P (fst g)) groups)
    = filter (fun g => P (fst g))
        (fold_left
           (fun groups row =>
              match fst row with
              | None => groups
              | Some k => group_add klt k (snd row) groups
              end) rows groups)) as Hgen.
  { induction rows as [|[k v] rows IH]; intros groups Hg; simpl; [done|].
    rewrite filter_cons. destruct k as [k|]; simpl.
    - destruct (decide (key_selected (Some k, v))) as [Hk|Hk];
        unfold key_selected in Hk; simpl in Hk; simpl.
      + rewrite group_add_filter_in by done. apply IH.
        by apply group_add_ascending.
      + rewrite <- (group_add_filter_out k v groups Hk).
        apply IH. by apply group_add_ascending.
    - destruct (decide (key_selected (None, v))) as [[]|_]. by apply IH. }
  apply (Hgen []). constructor.
Qed.

(** Selecting keys before a group-by or after it gives the same groups. *)
Lemma groupby_sum_filter (rows : list (option K * A)) :
  groupby_sum klt (filter key_selected rows)
  = filter (fun g => P (fst g)) (groupby_sum klt rows).
Proof.
  unfold groupby_sum. rewrite group_sums_filter.
  by rewrite (filter_map_comm (fun g : K * (A * A) => (fst g, fst (snd g)))
                (fun g => P (fst g))).
Qed.

End GroupFilter.

(** ** Which rows reach the tables of the stages *)

Section JoinedRows.
Context {A : Type} `{Number A}.

Lemma filter_all {X : Type} (Q : X -> Prop) `{forall x, Decision (Q x)}
    (l : list X) :
  (forall x, x ∈ l -> Q x) -> filter Q l = l.
Proof.
  induction l as [|x l IH]; intros Hall; [done|].
  rewrite filter_cons, decide_True by (apply Hall, list_elem_of_here).
  f_equal. apply IH. intros y Hy. by apply Hall, list_elem_of_further.
Qed.

(** The households of the Lorenz table are those with a row in the
    household table and at least one expense row. *)
Lemma household_totals_ids (hs : list (Households.row A)) es (k : Z) :
  k ∈ map Lorenz.hh_id (household_totals hs es) <->
  Some k ∈ map Expenses.hh_id es /\ Some k ∈ map Households.hh_id hs.
Proof.
  unfold household_totals. rewrite map_map. simpl. split.
  - intros Hk. apply list_elem_of_fmap in Hk as ([[k' s] h] & -> & Hin).
    simpl. apply elem_of_merge in Hin as (Hg & Hh & Hkey). simpl in Hkey.
    split.
    + assert (k' ∈ map fst (groupby_sum Z.ltb
                (map (fun e => (Expenses.hh_id e, Expenses.annual_expenditure e)) es)))
        as Hk' by (apply list_elem_of_fmap; by exists (k', s)).
      apply elem_of_groupby_keys in Hk'. by rewrite map_map in Hk'.
    + rewrite Hkey. apply list_elem_of_fmap. by exists h.
  - intros [He Hh].
    assert (k ∈ map fst (groupby_sum Z.ltb
              (map (fun e => (Expenses.hh_id e, Expenses.annual_expenditure e)) es)))
      as Hk by (apply elem_of_groupby_keys; by rewrite map_map).
    apply list_elem_of_fmap in Hk as ([k' s] & -> & Hg).
    apply list_elem_of_fmap in Hh as (h & Hkey & Hh).
    apply list_elem_of_fmap. exists ((k', s), h). split; [done|].
    by apply elem_of_merge.
Qed.

Lemma matching_at_most_one {X : Type} (key : X -> option Z) (c : option Z)
    (l : list X) :
  NoDup (map key l) -> (length (filter (fun x => c = key x) l) <= 1)%nat.
Proof.
  induction l as [|x l IH]; simpl; [lia|]. intros Hnd.
  apply NoDup_cons in Hnd as [Hx Hnd]. rewrite filter_cons.
  destruct (decide (c = key x)) as [->|Hne]; simpl; [|by apply IH].
  rewrite (proj2 (length_zero_iff_nil (filter _ l))); [lia|].
  apply elem_of_nil_inv. intros y Hy.
  apply list_elem_of_filter in Hy as [Hkey Hy]. apply Hx.
  rewrite Hkey. apply list_elem_of_fmap. by exists y.
Qed.

(** Joining rows of distinct keys to a table of distinct keys gives rows of
    distinct keys. *)
Lemma merge_NoDup {L R : Type} (on_left : L -> option Z)
    (on_right : R -> option Z) (left : list L) (right : list R) :
  NoDup (map on_left left) -> NoDup (map on_right right) ->
  NoDup (map (fun lr => on_left (fst lr)) (merge on_left on_right left right)).
Proof.
  intros Hl Hr. unfold merge. induction left as [|l left IH]; simpl; [constructor|].
  apply NoDup_cons in Hl as [Hl Hnd]. rewrite map_app. apply NoDup_app.
  split; [|split; [|by apply IH]].
  - rewrite map_map. simpl.
    pose proof (matching_at_most_one on_right (on_left l) right Hr) as Hlen.
    destruct (filter _ right) as [|r [|r' rs]]; simpl in *; try lia.
    + constructor.
    + apply NoDup_singleton.
  - intros c Hc Hc'. apply Hl.
    rewrite map_map in Hc. apply list_elem_of_fmap in Hc as (r & -> & _). simpl.
    apply list_elem_of_fmap in Hc' as ([l' r'] & Hkey & Hin). simpl in Hkey.
    rewrite Hkey. apply list_elem_of_fmap. exists l'. split; [done|].
    change (flat_map _ left) with (merge on_left on_right left right) in Hin.
    by apply elem_of_merge in Hin as [? _].
Qed.

Lemma household_totals_NoDup (hs : list (Households.row A)) es :
  NoDup (map Households.hh_id hs) ->
  NoDup (map Lorenz.hh_id (household_totals hs es)).
Proof.
  intros Hhs. unfold household_totals. rewrite map_map. simpl.
  pose proof (merge_NoDup (fun g : Z * A => Some (fst g)) Households.hh_id
    (groupby_sum Z.ltb
       (map (fun e => (Expenses.hh_id e, Expenses.annual_expenditure e)) es))
    hs) as Hm.
  apply (NoDup_fmap_1 Some). rewrite <- list_fmap_compose. apply Hm; [|done].
  rewrite <- (map_map fst Some). apply NoDup_fmap_2; [apply _|].
  apply (groupby_sum_NoDup Z.ltb Zltb_irrefl Zltb_trans Zltb_total).
Qed.

(** Expense rows of households that are not in the household table play no
    part in the Lorenz table. *)
Lemma household_totals_known_only (hs : list (Households.row A)) es :
  household_totals hs
    (filter (fun e => Expenses.hh_id e ∈ map Households.hh_id hs) es)
  = household_totals hs es.
Proof.
  unfold household_totals. f_equal.
  set (rows := map (fun e => (Expenses.hh_id e, Expenses.annual_expenditure e)) es).
  pose proof (groupby_sum_filter Z.ltb Zltb_irrefl Zltb_trans Zltb_total
                (fun k : Z => Some k ∈ map Households.hh_id hs) rows) as Hsel.
  assert (groupby_sum Z.ltb
            (map (fun e => (Expenses.hh_id e, Expenses.annual_expenditure e))
               (filter (fun e => Expenses.hh_id e ∈ map Households.hh_id hs) es))
          = groupby_sum Z.ltb
              (filter (key_selected (fun k : Z => Some k ∈ map Households.hh_id hs))
                 rows)) as ->.
  { assert (map (fun e => (Expenses.hh_id e, Expenses.annual_expenditure e))
              (filter (fun e => Expenses.hh_id e ∈ map Households.hh_id hs) es)
            = filter (fun r => fst r ∈ map Households.hh_id hs) rows) as ->
      by (symmetry; apply filter_map_comm).
    rewrite <- (groupby_sum_dropna Z.ltb (filter _ rows)).
    rewrite <- (groupby_sum_dropna Z.ltb (filter (key_selected _) rows)).
    f_equal. rewrite !list_filter_filter. apply list_filter_iff.
    intros [[k|] v]; unfold key_selected; simpl.
    - split; [intros [? ?]; split; [eauto|done]|intros [? ?]; split; [done|eauto]].
    - split; intros [[? [=]] _]. }
  rewrite Hsel, merge_filter_left. apply filter_all.
  intros [[k s] h] Hin. apply elem_of_merge in Hin as (_ & Hh & Hkey).
  simpl in *. rewrite Hkey. apply list_elem_of_fmap. by exists h.
Qed.

(** Expense rows of unknown products or of unknown households play no part
    in the category shares. *)
Lemma merged_expenses_known_only (hs : list (Households.row A)) es ps :
  merged_expenses hs
    (filter (fun e => Expenses.product_id e ∈ map Products.product_id ps /\
                      Expenses.hh_id e ∈ map Households.hh_id hs) es) ps
  = merged_expenses hs es ps.
Proof.
  unfold merged_expenses. rewrite merge_filter_left.
  rewrite (merge_filter_left (fun r : Expenses.row A * Products.row =>
                                Expenses.hh_id (fst r)) fst
             (fun r => Expenses.product_id (fst r) ∈ map Products.product_id ps /\
                       Expenses.hh_id (fst r) ∈ map Households.hh_id hs)).
  apply filter_all. intros [[e p] kw] Hin. simpl.
  apply elem_of_merge in Hin as (Hep & Hkw & Hkey). simpl in Hkey.
  apply elem_of_merge in Hep as (_ & Hp & Hpid).
  apply list_elem_of_fmap in Hkw as (h & -> & Hh). simpl in Hkey. split.
  - rewrite Hpid. apply list_elem_of_fmap. by exists p.
  - rewrite Hkey. apply list_elem_of_fmap. by exists h.
Qed.

End JoinedRows.

(** ** The Lorenz table and the joins *)

Section LorenzJoin.
Context {A : Type} `{Number A}.
Variable sort_values : forall R : Type, (R -> A) -> list R -> list R.

(** X3.  Expense rows of households that are not in the household table
    change nothing in the Lorenz stage: the run is the same with and without
    them. *)
Theorem lorenz_ignores_unknown_households hs es (w : world A) :
  compute_lorenz_curve_and_gini sort_values hs
    (filter (fun e => Expenses.hh_id e ∈ map Households.hh_id hs) es) w
  = compute_lorenz_curve_and_gini sort_values hs es w.
Proof.
  unfold compute_lorenz_curve_and_gini, total_expenditure.
  by rewrite household_totals_known_only.
Qed.

Hypothesis sort_values_sorts : sorts_values sort_values.

(** X4.  A household has a row in the sorted Lorenz table exactly when it
    has a row in the household table and at least one expense row: households
    without expenses, and expenses of unknown households, are left out. *)
Theorem lorenz_table_households hs es (k : Z) :
  k ∈ map Lorenz.hh_id (total_expenditure sort_values hs es) <->
  Some k ∈ map Expenses.hh_id es /\ Some k ∈ map Households.hh_id hs.
Proof.
  unfold total_expenditure.
  destruct (sort_values_sorts _ Lorenz.per_capita_expenditure
              (household_totals hs es)) as [Hperm _].
  rewrite Hperm. apply household_totals_ids.
Qed.

(** X5.  When the household identifiers of the household table are
    distinct, every household has at most one row in the Lorenz table,
    whatever the number of its expense rows. *)
Theorem lorenz_table_one_row_per_household hs es :
  NoDup (map Households.hh_id hs) ->
  NoDup (map Lorenz.hh_id (total_expenditure sort_values hs es)).
Proof.
  intros Hhs. unfold total_expenditure.
  destruct (sort_values_sorts _ Lorenz.per_capita_expenditure
              (household_totals hs es)) as [Hperm _].
  rewrite Hperm. by apply household_totals_NoDup.
Qed.

Lemma total_expenditure_nil hs es :
  (forall k : Z, Some k ∈ map Expenses.hh_id es ->
                 Some k ∉ map Households.hh_id hs) ->
  total_expenditure sort_values hs es = [].
Proof.
  intros Hnone. unfold total_expenditure.
  destruct (sort_values_sorts _ Lorenz.per_capita_expenditure
              (household_totals hs es)) as [Hperm _].
  assert (household_totals hs es = []) as Hnil.
  { apply elem_of_nil_inv. intros r Hr.
    assert (Lorenz.hh_id r ∈ map Lorenz.hh_id (household_totals hs es)) as Hk
      by (apply list_elem_of_fmap; by exists r).
    apply household_totals_ids in Hk as [He Hh]. by apply (Hnone _ He). }
  rewrite Hnil in Hperm |- *. by apply Permutation_nil_r in Hperm.
Qed.

(** X6.  When no household of the expense table is in the household table
    (an empty expense table, for one), the Lorenz table is empty and the
    stage stops with [ValueError] at [np.argmin]: nothing is printed and no
    figure is written. *)
Theorem lorenz_raises_on_empty_table hs es (w : world A) :
  (forall k : Z, Some k ∈ map Expenses.hh_id es ->
                 Some k ∉ map Households.hh_id hs) ->
  compute_lorenz_curve_and_gini sort_values hs es w = (Raise ValueError, w).
Proof.
  intros Hnone. unfold compute_lorenz_curve_and_gini.
  by rewrite (total_expenditure_nil hs es Hnone).
Qed.

End LorenzJoin.

(** ** The category table and the joins *)

(** The twelve names of the mapping. *)
Definition coicop_names : list string :=
  map snd (map_to_list coicop_mapping).

Section ShareJoin.
Context {A : Type} `{Number A}.

(** X7.  An expense row whose product is not in the product table, or whose
    household is not in the household table, changes nothing in the
    category-share stage: the inner joins drop it, from the sums and from the
    grand total. *)
Theorem national_share_ignores_unmatched_expenses hs es ps (w : world A) :
  compute_national_share hs
    (filter (fun e => Expenses.product_id e ∈ map Products.product_id ps /\
                      Expenses.hh_id e ∈ map Households.hh_id hs) es) ps w
  = compute_national_share hs es ps w.
Proof.
  unfold compute_national_share, national_share, national_expenditure.
  by rewrite merged_expenses_known_only.
Qed.

Lemma national_share_keys (hs : list (Households.row A)) es ps :
  map fst (national_share hs es ps) = map fst (national_expenditure hs es ps).
Proof. unfold national_share. by rewrite !map_map. Qed.

(** X8.  The rows of the category table come in strictly ascending order of
    the category names, so no category occurs twice, and there are at most
    twelve of them. *)
Theorem national_share_categories_ascending
    (hs : list (Households.row A)) es ps :
  StronglySorted (fun a b => String.ltb a b = true)
    (map fst (national_share hs es ps)) /\
  NoDup (map fst (national_share hs es ps)) /\
  (length (national_share hs es ps) <= 12)%nat.
Proof.
  assert (StronglySorted (fun a b => String.ltb a b = true)
            (map fst (national_share hs es ps))) as Hs.
  { rewrite national_share_keys.
    apply (groupby_sum_ascending String.ltb string_ltb_trans string_ltb_total). }
  assert (NoDup (map fst (national_share hs es ps))) as Hnd
    by (by apply (ascending_NoDup String.ltb string_ltb_irrefl)).
  split; [done|]. split; [done|].
  rewrite <- (length_map fst).
  change 12%nat with (length coicop_names).
  apply NoDup_incl_length; [by apply NoDup_ListNoDup|].
  intros name Hname. apply list_elem_of_In in Hname. apply list_elem_of_In.
  apply list_elem_of_fmap in Hname as (g & -> & Hg).
  destruct (national_share_categories hs es ps g Hg) as (c & Hc).
  unfold coicop_names. apply list_elem_of_fmap. exists (c, fst g).
  split; [done|]. by apply elem_of_map_to_list.
Qed.

Lemma national_expenditure_category_iff
    (hs : list (Households.row A)) es ps (name : string) :
  name ∈ map fst (national_expenditure hs es ps) <->
  exists e p h,
    e ∈ es /\ p ∈ ps /\ h ∈ hs /\
    Expenses.product_id e = Products.product_id p /\
    Expenses.hh_id e = Households.hh_id h /\
    coicop_category (Products.coicop_survey_1 p) = Some name.
Proof.
  unfold national_expenditure.
  rewrite elem_of_groupby_keys, map_map, list_elem_of_fmap. split.
  - intros ([[e p] kw] & Hname & Hin). simpl in Hname.
    unfold merged_expenses in Hin.
    apply elem_of_merge in Hin as (Hep & Hkw & Hk).
    apply elem_of_merge in Hep as (He & Hp & Hpid).
    apply list_elem_of_fmap in Hkw as (h & -> & Hh).
    exists e, p, h. by repeat split.
  - intros (e & p & h & He & Hp & Hh & Hpid & Hk & Hname).
    exists (e, p, (Households.hh_id h, Households.weight h)). split; [done|].
    unfold merged_expenses. apply elem_of_merge. split; [|split; [|done]].
    + by apply elem_of_merge.
    + apply list_elem_of_fmap. by exists h.
Qed.

(** X9.  A category has a row in the category table exactly when some
    expense row is joined to a product of that category and to a household.
    The categories without such a row are absent, not listed with a share
    of 0. *)
Theorem national_share_category_iff
    (hs : list (Households.row A)) es ps (name : string) :
  name ∈ map fst (national_share hs es ps) <->
  exists e p h,
    e ∈ es /\ p ∈ ps /\ h ∈ hs /\
    Expenses.product_id e = Products.product_id p /\
    Expenses.hh_id e = Households.hh_id h /\
    coicop_category (Products.coicop_survey_1 p) = Some name.
Proof.
  rewrite national_share_keys. apply national_expenditure_category_iff.
Qed.

End ShareJoin.

(** ** The sum of a group *)

(** The sum and the compensation pandas holds for a group after the values
    [vs], in their order. *)
Definition kahan_state {A} `{Number A} (vs : list A) : A * A :=
  fold_left group_sum_step vs (of_Z 0, of_Z 0).

(** The compensated sum of [vs], the missing values left out. *)
Definition kahan_total {A} `{Number A} (vs : list A) : A :=
  fst (kahan_state vs).

(** The values of the rows of key [k], in the order of the rows. *)
Definition key_values {A K : Type} `{EqDecision K}
    (k : K) (rows : list (option K * A)) : list A :=
  map snd (filter (fun r => fst r = Some k) rows).

Fixpoint group_state {V K : Type} `{EqDecision K}
    (k : K) (groups : list (K * V)) : option V :=
  match groups with
  | [] => None
  | (k', s) :: rest => if decide (k = k') then Some s else group_state k rest
  end.

Section GroupValue.
Context {A : Type} `{Number A} {K : Type} `{EqDecision K}.
Variable klt : K -> K -> bool.
Hypothesis klt_irrefl : forall k, klt k k = false.
Hypothesis klt_trans :
  forall a b c, klt a b = true -> klt b c = true -> klt a c = true.
Hypothesis klt_total :
  forall a b, a <> b -> klt a b = false -> klt b a = true.

Lemma kahan_state_snoc (vs : list A) (v : A) :
  kahan_state (vs ++ [v]) = group_sum_step (kahan_state vs) v.
Proof. unfold kahan_state. by rewrite fold_left_app. Qed.

Lemma group_state_None {V : Type} (k : K) (groups : list (K * V)) :
  group_state k groups = None <-> k ∉ map fst groups.
Proof.
  induction groups as [|[k' s] groups IH]; simpl.
  - split; [intros _; apply not_elem_of_nil|done].
  - rewrite not_elem_of_cons. destruct (decide (k = k')) as [->|Hne].
    + split; [done|]. by intros [? _].
    + rewrite IH. tauto.
Qed.

Lemma group_state_elem {V : Type} (k : K) (s : V) (groups : list (K * V)) :
  NoDup (map fst groups) ->
  (k, s) ∈ groups <-> group_state k groups = Some s.
Proof.
  induction groups as [|[k' s'] groups IH]; simpl; intros Hnd.
  - split; [by intros ?%elem_of_nil|done].
  - apply NoDup_cons in Hnd as [Hk' Hnd]. rewrite elem_of_cons, (IH Hnd).
    destruct (decide (k = k')) as [->|Hne].
    + split.
      * intros [[= ->]|Hin]; [done|]. exfalso.
        apply (proj2 (group_state_None k' groups)) in Hk'. congruence.
      * intros [= ->]. by left.
    + split; [|by right]. intros [[= ? ?]|Hin]; [done|done].
Qed.

Lemma group_add_state_other (k k' : K) (v : A) (groups : list (K * (A * A))) :
  k' <> k -> group_state k' (group_add klt k v groups) = group_state k' groups.
Proof.
  intros Hne. induction groups as [|[k0 s] groups IH]; simpl.
  - by destruct (decide (k' = k)).
  - destruct (decide (k = k0)) as [->|Hk0]; simpl.
    + by destruct (decide (k' = k0)).
    + destruct (klt k k0); simpl.
      * by destruct (decide (k' = k)).
      * destruct (decide (k' = k0)); [done|apply IH].
Qed.

Lemma group_add_state_same (k : K) (v : A) (groups : list (K * (A * A))) :
  keys_ascending klt groups ->
  group_state k (group_add klt k v groups)
  = Some (group_sum_step
            (default (of_Z 0, of_Z 0) (group_state k groups)) v).
Proof.
  unfold keys_ascending. induction groups as [|[k0 s] groups IH]; simpl.
  - intros _. by destruct (decide (k = k)).
  - intros Hs. apply StronglySorted_inv in Hs as [Hs Hall].
    destruct (decide (k = k0)) as [->|Hk0]; simpl.
    + by destruct (decide (k0 = k0)).
    + destruct (klt k k0) eqn:Hlt; simpl.
      * destruct (decide (k = k)); [|done]. destruct (decide (k = k0)); [done|].
        assert (group_state k groups = None) as ->; [|done].
        apply group_state_None. intros Hin.
        rewrite Forall_forall in Hall. specialize (Hall k Hin).
        pose proof (klt_trans _ _ _ Hlt Hall) as Hkk.
        by rewrite klt_irrefl in Hkk.
      * destruct (decide (k = k0)); [done|]. by apply IH.
Qed.

Lemma group_sums_snoc (rows : list (option K * A)) (r : option K * A) :
  group_sums klt (rows ++ [r])
  = match fst r with
    | None => group_sums klt rows
    | Some k => group_add klt k (snd r) (group_sums klt rows)
    end.
Proof. unfold group_sums. by rewrite fold_left_app. Qed.

Lemma key_values_snoc (k : K) (rows : list (option K * A)) (r : option K * A) :
  key_values k (rows ++ [r])
  = key_values k rows ++ (if decide (fst r = Some k) then [snd r] else []).
Proof.
  unfold key_values. rewrite filter_app, map_app. f_equal.
  rewrite filter_cons, filter_nil. by destruct (decide (fst r = Some k)).
Qed.

Lemma key_values_nil (k : K) (rows : list (option K * A)) :
  key_values k rows = [] <-> Some k ∉ map fst rows.
Proof.
  unfold key_values. split.
  - intros Hnil Hin. apply list_elem_of_fmap in Hin as (r & Hr & Hin).
    apply List.map_eq_nil in Hnil.
    by apply (filter_nil_not_elem_of _ _ r Hnil).
  - intros Hnot.
    assert (filter (fun r : option K * A => fst r = Some k) rows = []) as ->;
      [|done].
    apply elem_of_nil_inv. intros r Hr.
    apply list_elem_of_filter in Hr as [Hk Hr]. apply Hnot.
    apply list_elem_of_fmap. by exists r.
Qed.

(** The state of the group of key [k]: the compensated sum of the values of
    the rows of key [k], in the order of the rows. *)
Lemma group_sums_state (rows : list (option K * A)) (k : K) :
  group_state k (group_sums klt rows)
  = if decide (key_values k rows = []) then None
    else Some (kahan_state (key_values k rows)).
Proof.
  induction rows as [|[k0 v] rows IH] using rev_ind; [done|].
  rewrite group_sums_snoc, key_values_snoc. simpl.
  destruct k0 as [k0|].
  - destruct (decide (Some k0 = Some k)) as [[= ->]|Hne].
    + rewrite group_add_state_same by (by apply group_sums_ascending).
      rewrite IH, kahan_state_snoc.
      destruct (decide (key_values k rows ++ [v] = [])) as [Hnil|_];
        [by destruct (key_values k rows)|].
      by destruct (decide (key_values k rows = [])) as [->|_].
    + rewrite app_nil_r, group_add_state_other by congruence. done.
  - destruct (decide (None = Some k)); [done|]. by rewrite app_nil_r.
Qed.

Lemma elem_of_groupby_sum (rows : list (option K * A)) (k : K) (s : A) :
  (k, s) ∈ groupby_sum klt rows <->
  Some k ∈ map fst rows /\ s = kahan_total (key_values k rows).
Proof.
  unfold groupby_sum. rewrite list_elem_of_fmap. split.
  - intros ([k' st] & [= -> ->] & Hin). simpl.
    apply group_state_elem in Hin;
      [|rewrite <- groupby_sum_keys; by apply (groupby_sum_NoDup klt)].
    rewrite group_sums_state in Hin.
    destruct (decide (key_values k' rows = [])) as [|Hne]; [done|].
    injection Hin as <-. split; [|done].
    destruct (decide (Some k' ∈ map fst rows)) as [|Hnot]; [done|].
    by apply key_values_nil in Hnot.
  - intros [Hin ->]. exists (k, kahan_state (key_values k rows)).
    split; [done|]. apply group_state_elem;
      [rewrite <- groupby_sum_keys; by apply (groupby_sum_NoDup klt)|].
    rewrite group_sums_state. rewrite decide_False; [done|].
    intros Hnil. by apply key_values_nil in Hnil.
Qed.

End GroupValue.

(** ** The rows of the Lorenz table *)

(** The expenditures of household [k], in the order of the expense rows. *)
Definition household_expenditures {A : Type}
    (k : Z) (df_expenses : list (Expenses.row A)) : list A :=
  map Expenses.annual_expenditure
    (filter (fun e => Expenses.hh_id e = Some k) df_expenses).

Section LorenzRows.
Context {A : Type} `{Number A}.
Variable sort_values : forall R : Type, (R -> A) -> list R -> list R.
Hypothesis sort_values_sorts : sorts_values sort_values.

Lemma household_expenditures_values (k : Z) (es : list (Expenses.row A)) :
  key_values k
    (map (fun e => (Expenses.hh_id e, Expenses.annual_expenditure e)) es)
  = household_expenditures k es.
Proof.
  unfold key_values, household_expenditures.
  induction es as [|e es IH]; [done|]. simpl.
  rewrite !filter_cons. simpl.
  destruct (decide (Expenses.hh_id e = Some k)); simpl; by rewrite IH.
Qed.

Lemma household_totals_rows hs es (r : Lorenz.row A) :
  r ∈ household_totals hs es <->
  exists h, h ∈ hs /\
    Households.hh_id h = Some (Lorenz.hh_id r) /\
    Lorenz.weight r = Households.weight h /\
    Lorenz.hh_size r = Households.hh_size h /\
    Some (Lorenz.hh_id r) ∈ map Expenses.hh_id es /\
    Lorenz.annual_expenditure r
      = kahan_total (household_expenditures (Lorenz.hh_id r) es) /\
    Lorenz.per_capita_expenditure r
      = (Lorenz.annual_expenditure r / Lorenz.hh_size r)%num.
Proof.
  unfold household_totals. rewrite list_elem_of_fmap. split.
  - intros ([[k s] h] & -> & Hin). simpl.
    apply elem_of_merge in Hin as (Hg & Hh & Hk). simpl in Hk.
    apply (elem_of_groupby_sum Z.ltb Zltb_irrefl Zltb_trans Zltb_total) in Hg
      as [Hkey Hsum].
    rewrite household_expenditures_values in Hsum. rewrite map_map in Hkey.
    exists h. by repeat split.
  - intros (h & Hh & Hk & Hw & Hsz & Hkey & Hsum & Hpc).
    exists ((Lorenz.hh_id r, Lorenz.annual_expenditure r), h). split.
    + destruct r as [k s w n pc]. simpl in *. by subst.
    + apply elem_of_merge. split; [|by split].
      apply (elem_of_groupby_sum Z.ltb Zltb_irrefl Zltb_trans Zltb_total).
      rewrite household_expenditures_values, map_map. done.
Qed.

(** X10.  The rows of the Lorenz table are these and no others: one for
    every household row whose household has expense rows, with the weight and
    the size of that household row, the compensated (Kahan) sum of the
    household's expenditures, taken in the order of the expense rows and
    without the missing ones, and that sum divided by the size as per-capita
    expenditure. *)
Theorem lorenz_table_rows hs es (r : Lorenz.row A) :
  r ∈ total_expenditure sort_values hs es <->
  exists h, h ∈ hs /\
    Households.hh_id h = Some (Lorenz.hh_id r) /\
    Lorenz.weight r = Households.weight h /\
    Lorenz.hh_size r = Households.hh_size h /\
    Some (Lorenz.hh_id r) ∈ map Expenses.hh_id es /\
    Lorenz.annual_expenditure r
      = kahan_total (household_expenditures (Lorenz.hh_id r) es) /\
    Lorenz.per_capita_expenditure r
      = (Lorenz.annual_expenditure r / Lorenz.hh_size r)%num.
Proof.
  unfold total_expenditure.
  destruct (sort_values_sorts _ Lorenz.per_capita_expenditure
              (household_totals hs es)) as [Hperm _].
  rewrite Hperm. apply household_totals_rows.
Qed.

End LorenzRows.

(** ** Missing identifiers and the count of the validator *)

Section MissingValues.
Context {A : Type} `{Number A}.


(** X13.  When every household has expenses, the number in the confirmation
    is the number of distinct household identifiers of the household table,
    not the number of its rows. *)
Theorem confirmation_counts_distinct_households
    (hs : list (Households.row A)) (es : list (Expenses.row A)) :
  household_ids_covered hs es ->
  exists ks : list Z,
    NoDup ks /\
    (forall k, k ∈ ks <-> Some k ∈ map Households.hh_id hs) /\
    verdict hs es = confirmation (A:=A) (length ks).
Proof.
  intros Hcov.
  exists (elements (members (set_of_column (map Households.hh_id hs)))).
  split; [apply NoDup_elements|]. split.
  - intros k. rewrite elem_of_elements. apply elem_of_members.
  - rewrite (verdict_covered hs es Hcov). f_equal. unfold len.
    assert (nans (set_of_column (map Households.hh_id hs)) = 0%nat) as ->.
    { apply nans_zero. intros Hnone. by destruct (Hcov _ Hnone) as (k & ? & _). }
    by rewrite Nat.add_0_r.
Qed.

End MissingValues.

(** ** The effects of the stages *)

Definition share_header : list string := ["Category"; "Share (%)"]%string.

Definition share_heading {A} : printed A :=
  Line [Lit "National Share of Spending by COICOP Level 1:"].

Definition gini_line {A} (g : A) : printed A :=
  Line [Lit (nl ++ "Gini Coefficient: ")%string; Fixed 4 g].

Section Effects.
Context {A : Type} `{Number A}.
Variable sort_values : forall R : Type, (R -> A) -> list R -> list R.

(** The world after the category-share stage. *)
Definition after_national_share hs es ps (w : world A) : world A :=
  {| df_households := df_households w; df_expenses := df_expenses w;
     df_products := df_products w;
     console := console w
                ++ [share_heading; Frame share_header (national_share hs es ps)];
     dirs := {[ "output"%string ]} ∪ dirs w;
     files := <[ "output/national_share.csv"%string
                 := Csv share_header (national_share hs es ps) ]> (files w) |}.

(** The world after a Lorenz stage that reports [share]. *)
Definition after_lorenz hs es (share : A) (w : world A) : world A :=
  {| df_households := df_households w; df_expenses := df_expenses w;
     df_products := df_products w;
     console := console w
                ++ [fifty_line share;
                    gini_line (gini (total_expenditure sort_values hs es))];
     dirs := dirs w;
     files := <[ "output/lorenz_curve.png"%string
                 := Figure (cum_pop (total_expenditure sort_values hs es))
                      (cum_exp (total_expenditure sort_values hs es)) ]>
                (files w) |}.

Lemma compute_national_share_run hs es ps (w : world A) :
  compute_national_share hs es ps w
  = (Ok tt, after_national_share hs es ps w).
Proof.
  unfold compute_national_share, mbind, M_bind, makedirs, write_file, print.
  simpl. rewrite bool_decide_eq_true_2 by set_solver.
  unfold after_national_share. simpl. by rewrite <- app_assoc.
Qed.

Lemma compute_lorenz_run hs es share (w : world A) :
  fifty_percentile_share (total_expenditure sort_values hs es) = Some share ->
  "output"%string ∈ dirs w ->
  compute_lorenz_curve_and_gini sort_values hs es w
  = (Ok tt, after_lorenz hs es share w).
Proof.
  intros Hshare Hdir. unfold compute_lorenz_curve_and_gini. rewrite Hshare.
  unfold mbind, M_bind, write_file, print. simpl.
  rewrite bool_decide_eq_true_2 by done.
  unfold after_lorenz. simpl. by rewrite <- app_assoc.
Qed.

Lemma compute_lorenz_no_directory hs es share (w : world A) :
  fifty_percentile_share (total_expenditure sort_values hs es) = Some share ->
  "output"%string ∉ dirs w ->
  compute_lorenz_curve_and_gini sort_values hs es w
  = (Raise FileNotFoundError, with_console w [fifty_line share]).
Proof.
  intros Hshare Hdir. unfold compute_lorenz_curve_and_gini. rewrite Hshare.
  unfold mbind, M_bind, write_file, print. simpl.
  by rewrite bool_decide_eq_false_2 by done.
Qed.

(** The world when the Lorenz stage starts. *)
Definition before_lorenz (w : world A) : world A :=
  after_national_share (df_households w) (df_expenses w) (df_products w)
    (with_console w
       (sanity_header :: verdict (df_households w) (df_expenses w)
        :: nan_report (df_households w) (df_expenses w) (df_products w))).

Lemma main_run (w : world A) :
  main sort_values w
  = match fifty_percentile_share
            (total_expenditure sort_values (df_households w) (df_expenses w))
    with
    | Some share =>
        (Ok tt,
         after_lorenz (df_households w) (df_expenses w) share (before_lorenz w))
    | None => (Raise ValueError, before_lorenz w)
    end.
Proof.
  unfold main, mbind, M_bind.
  rewrite sanity_check_prints, compute_national_share_run.
  fold (before_lorenz w).
  destruct (fifty_percentile_share _) as [share|] eqn:Hshare.
  - apply compute_lorenz_run; [done|]. unfold before_lorenz. simpl. set_solver.
  - unfold compute_lorenz_curve_and_gini. by rewrite Hshare.
Qed.

(** X14.  Once the tables are loaded, whatever they hold and whatever the
    world the stages start in, the script does not end with
    [FileNotFoundError]: the category-share stage has made the directory by
    the time the figure is saved.  It ends normally or with the [ValueError]
    of [np.argmin], and in both cases the category table has been written to
    [output/national_share.csv] and no table was changed. *)
Theorem main_never_misses_directory (w : world A) :
  (fst (main sort_values w) = Ok tt \/
   fst (main sort_values w) = Raise ValueError) /\
  files (snd (main sort_values w)) !! "output/national_share.csv"%string
    = Some (Csv share_header
              (national_share (df_households w) (df_expenses w) (df_products w)))
  /\ df_households (snd (main sort_values w)) = df_households w
  /\ df_expenses (snd (main sort_values w)) = df_expenses w
  /\ df_products (snd (main sort_values w)) = df_products w.
Proof.
  rewrite main_run. destruct (fifty_percentile_share _) as [share|]; simpl.
  - split; [by left|]. split; [|done].
    rewrite lookup_insert_ne by done. by rewrite lookup_insert.
  - split; [by right|]. split; [|done]. by rewrite lookup_insert.
Qed.


(** X17.  Run on its own in a world without the directory [output], the
    Lorenz stage of a table with a cumulative population share that is not
    NaN prints the line of the bottom half and then fails with
    [FileNotFoundError] at [plt.savefig]: no Gini line is printed and no file
    is written. *)
Theorem lorenz_needs_output_directory hs es (w : world A) :
  (exists d,
     d ∈ distances (total_expenditure sort_values hs es) /\ isnan d = false) ->
  "output"%string ∉ dirs w ->
  exists share,
    fifty_percentile_share (total_expenditure sort_values hs es) = Some share /\
    compute_lorenz_curve_and_gini sort_values hs es w
    = (Raise FileNotFoundError, with_console w [fifty_line share]).
Proof.
  intros [share Hshare]%fifty_percentile_share_defined Hdir.
  exists share. split; [done|]. by apply compute_lorenz_no_directory.
Qed.

Hypothesis sort_values_sorts : sorts_values sort_values.

(** X15.  When no household of the expense table is in the household table
    (an empty table, for one), the script ends with [ValueError] after the
    category-share stage: the console shows the validator's lines and the
    category table, the CSV file is written, and neither a Lorenz line nor
    the figure is produced. *)
Theorem main_raises_on_empty_join (w : world A) :
  (forall k : Z, Some k ∈ map Expenses.hh_id (df_expenses w) ->
                 Some k ∉ map Households.hh_id (df_households w)) ->
  main sort_values w = (Raise ValueError, before_lorenz w) /\
  files (before_lorenz w) !! "output/lorenz_curve.png"%string
    = files w !! "output/lorenz_curve.png"%string.
Proof.
  intros Hnone. rewrite main_run.
  rewrite (total_expenditure_nil sort_values sort_values_sorts _ _ Hnone).
  split; [done|]. simpl. by rewrite lookup_insert_ne.
Qed.

End Effects.

(** ** Integer category codes *)

Section IntegerCodes.

(** Reading a decimal numeral back. *)
Definition Z_of_str (s : string) : option Z :=
  option_map Z.of_int (NilZero.int_of_string s).

Lemma Z_of_str_of_Z (z : Z) : Z_of_str (str_of_Z z) = Some z.
Proof.
  unfold Z_of_str, str_of_Z. rewrite <- (DecimalZ.of_to z) at 2.
  destruct (Z.to_int z) as [[| | | | | | | | | |]|[| | | | | | | | | |]] eqn:Hd;
    first [ by rewrite NilZero.isi_posnil
          | by rewrite NilZero.isi_negnil
          | by rewrite NilZero.isi ].
Qed.

Lemma str_of_Z_inj (z1 z2 : Z) : str_of_Z z1 = str_of_Z z2 -> z1 = z2.
Proof.
  intros Heq. apply (f_equal Z_of_str) in Heq.
  rewrite !Z_of_str_of_Z in Heq. by injection Heq.
Qed.

(** X20.  An integer cell of the code column gets a category exactly when it
    is one of 1, ..., 12; every other integer, 0 and the negative ones
    included, gives a missing category. *)
Theorem integer_code_mapped_iff (z : Z) :
  is_Some (coicop_category (CodeInt z)) <-> (1 <= z <= 12)%Z.
Proof.
  unfold coicop_category. simpl. split.
  - intros [name Hname]. unfold coicop_mapping in Hname.
    apply elem_of_list_to_map_2 in Hname.
    repeat (apply elem_of_cons in Hname as [[= Hz _]|Hname];
            [apply (f_equal Z_of_str) in Hz; rewrite Z_of_str_of_Z in Hz;
             vm_compute in Hz; injection Hz as ->; lia|]).
    by apply elem_of_nil in Hname.
  - intros Hz.
    assert (z = 1 \/ z = 2 \/ z = 3 \/ z = 4 \/ z = 5 \/ z = 6 \/ z = 7 \/
            z = 8 \/ z = 9 \/ z = 10 \/ z = 11 \/ z = 12)%Z as Hcases by lia.
    repeat (destruct Hcases as [->|Hcases]; [by eexists|]).
    subst z. by eexists.
Qed.

End IntegerCodes.

(** ** The row nearest to one half *)

Section NearestFifty.
Context {A : Type} `{NumberLaws A}.
Variable sort_values : forall R : Type, (R -> A) -> list R -> list R.


End NearestFifty.

(** ** A zero total *)

Section ZeroTotal.
Context {A : Type} `{NumberLaws A}.
Variable sort_values : forall R : Type, (R -> A) -> list R -> list R.

Lemma round2_non_finite (x : A) : non_finite x -> non_finite (round2 x).
Proof.
  intros Hx. unfold round2.
  by apply div_non_finite, rint_non_finite, mul_non_finite_l.
Qed.

Lemma isnan_non_finite (x : A) : isnan x = true -> non_finite x.
Proof. by left. Qed.

Lemma series_cumsum_tail_non_finite (acc : A) (xs : list A) :
  Forall non_finite xs ->
  Forall non_finite
    (zip_with (fun x s : A => if isnan x then x else s) xs
       (accumulate acc (map (fun x : A => if isnan x then of_Z 0 else x) xs))).
Proof.
  intros Hall. revert acc. induction Hall as [|x xs Hx Hall IH]; intros acc.
  - constructor.
  - simpl. constructor; [|apply IH].
    destruct (isnan x) eqn:Hnan; [done|]. by apply add_non_finite_r.
Qed.

(** Running sums of values none of which is finite: none is finite. *)
Lemma series_cumsum_non_finite (xs : list A) :
  Forall non_finite xs -> Forall non_finite (series_cumsum xs).
Proof.
  intros Hall. unfold series_cumsum. destruct Hall as [|x xs Hx Hall].
  - constructor.
  - simpl. constructor; [by destruct (isnan x)|].
    by apply series_cumsum_tail_non_finite.
Qed.

(** C10.  Neither stage guards its division by a total.  When the grand
    total of the weighted expenditure is zero, the category table still has
    a row for every category with an expense row, and no share in it is a
    finite number: each is NaN or an infinity.  When the total weighted
    expenditure of the Lorenz table is zero, the column [cum_exp] still has
    an entry for every row of the table, and none is finite.  A non-zero
    total is a precondition of both stages. *)
Theorem zero_total_gives_no_share
    (hs : list (Households.row A)) (es : list (Expenses.row A))
    (ps : list Products.row) :
  (zero_number (series_sum (map snd (national_expenditure hs es ps))) ->
   (forall g, g ∈ national_share hs es ps -> non_finite (snd g)) /\
   (forall e p h name,
      e ∈ es -> p ∈ ps -> h ∈ hs ->
      Expenses.product_id e = Products.product_id p ->
      Expenses.hh_id e = Households.hh_id h ->
      coicop_category (Products.coicop_survey_1 p) = Some name ->
      exists s, (name, s) ∈ national_share hs es ps /\ non_finite s)) /\
  (zero_number
     (series_sum
        (map (fun r => (Lorenz.annual_expenditure r * Lorenz.weight r)%num)
           (total_expenditure sort_values hs es))) ->
   length (cum_exp (total_expenditure sort_values hs es))
   = length (total_expenditure sort_values hs es) /\
   Forall non_finite (cum_exp (total_expenditure sort_values hs es))).
Proof.
  split.
  - intros Hzero.
    assert (forall g, g ∈ national_share hs es ps -> non_finite (snd g))
      as Hall.
    { intros g Hg. unfold national_share in Hg.
      apply list_elem_of_fmap in Hg as (g1 & -> & Hg).
      apply list_elem_of_fmap in Hg as (g0 & -> & Hg). simpl.
      by apply round2_non_finite, mul_non_finite_l, div_zero. }
    split; [done|].
    intros e p h name He Hp Hh Hpid Hk Hname.
    assert (name ∈ map fst (national_share hs es ps)) as Hin.
    { rewrite national_share_keys.
      apply national_expenditure_category_iff. eauto 10. }
    apply list_elem_of_fmap in Hin as ([name' s] & -> & Hin).
    exists s. split; [done|]. by apply (Hall (name', s)).
  - intros Hzero. split; [apply length_cum_exp|].
    unfold cum_exp. apply series_cumsum_non_finite.
    apply Forall_map, Forall_forall. intros e _. by apply div_zero.
Qed.

(** X21.  With a zero total weighted expenditure the Lorenz stage divides
    by zero without failing: as soon as one cumulative population share is
    not NaN and the directory [output] exists, it ends normally, and the
    share of the bottom half it prints is NaN or an infinity. *)
Theorem lorenz_zero_total_reports_no_number hs es (w : world A) :
  zero_number
    (series_sum
       (map (fun r => (Lorenz.annual_expenditure r * Lorenz.weight r)%num)
          (total_expenditure sort_values hs es))) ->
  (exists d,
     d ∈ distances (total_expenditure sort_values hs es) /\ isnan d = false) ->
  "output"%string ∈ dirs w ->
  exists share,
    non_finite share /\
    compute_lorenz_curve_and_gini sort_values hs es w
    = (Ok tt, after_lorenz sort_values hs es share w).
Proof.
  intros Hzero Hnum Hdir. set (t := total_expenditure sort_values hs es) in *.
  apply fifty_percentile_share_defined in Hnum as [share Hshare].
  exists share. split; [|by apply compute_lorenz_run].
  unfold fifty_percentile_share in Hshare.
  destruct (nearest_fifty t) as [i|]; [|done]. simpl in Hshare.
  destruct (cum_exp t !! i) as [y|] eqn:Hy; [|done]. injection Hshare as <-.
  apply round2_non_finite, mul_non_finite_r.
  assert (Forall non_finite (cum_exp t)) as Hall.
  { unfold cum_exp. apply series_cumsum_non_finite.
    apply Forall_map, Forall_forall. intros e _. by apply div_zero. }
  rewrite Forall_forall in Hall. apply Hall.
  by apply list_elem_of_lookup_2 in Hy.
Qed.

End ZeroTotal.

(** ** The two cumulative columns *)




Section CumulativeShares.
Context {A : Type} `{NumberLaws A}.










End CumulativeShares.

(** * Concrete tables, in binary64 *)

(** ** The scenario of three households, in binary64 *)

Definition scenario_households : list (Households.row float) :=
  [household_f 1 1 1; household_f 2 1 1; household_f 3 1 1].

Definition scenario_expenses : list (Expenses.row float) :=
  [expense_f 1 7 10; expense_f 2 7 20; expense_f 3 7 30].

Definition lorenz_row_f (k : Z) (x w s : float) : Lorenz.row float :=
  {| Lorenz.hh_id := k; Lorenz.annual_expenditure := x; Lorenz.weight := w;
     Lorenz.hh_size := s; Lorenz.per_capita_expenditure := (x / s)%float |}.

Lemma scenario_household_totals :
  household_totals scenario_households scenario_expenses
  = [lorenz_row_f 1 10 1 1; lorenz_row_f 2 20 1 1; lorenz_row_f 3 30 1 1].
Proof. vm_compute. reflexivity. Qed.

(** A table whose keys already increase strictly comes back from
    [sort_values] as it is, whatever the algorithm. *)
Lemma scenario_sorted_unique (l : list (Lorenz.row float)) :
  Permutation l
    [lorenz_row_f 1 10 1 1; lorenz_row_f 2 20 1 1; lorenz_row_f 3 30 1 1] ->
  StronglySorted
    (fun a b => key_le (Lorenz.per_capita_expenditure a)
                  (Lorenz.per_capita_expenditure b) = true) l ->
  l = [lorenz_row_f 1 10 1 1; lorenz_row_f 2 20 1 1; lorenz_row_f 3 30 1 1].
Proof.
  intros Hperm Hsorted.
  apply (StronglySorted_unique_strong
           (fun a b => key_le (Lorenz.per_capita_expenditure a)
                         (Lorenz.per_capita_expenditure b) = true)); [|done| |done].
  - intros x1 x2 H1 H2. rewrite Hperm in H1.
    rewrite !elem_of_cons, elem_of_nil in H1, H2.
    destruct H1 as [->|[->|[->|[]]]], H2 as [->|[->|[->|[]]]];
      vm_compute; intros; congruence.
  - repeat constructor.
Qed.

(** C2, as amended.  Three households of weight 1 and size 1 spend 10, 20
    and 30 on one category.  The table sorted by per-capita expenditure is
    10, 20, 30; the cumulative population shares are 1/3, 2/3 and 1 and the
    cumulative expenditure shares 1/6, 1/2 and 1 (the binary64 numbers
    nearest to them).  In binary64 the share 2/3 is nearer to 0.5 than the
    share 1/3, so the second row is selected, and the reported share of the
    bottom half is that row's cumulative expenditure share, 50.0 percent. *)
Theorem lorenz_scenario_three_households
    (sort_values : forall R : Type, (R -> float) -> list R -> list R) :
  Permutation
    (sort_values _ Lorenz.per_capita_expenditure
       (household_totals scenario_households scenario_expenses))
    (household_totals scenario_households scenario_expenses) ->
  StronglySorted
    (fun a b => key_le (Lorenz.per_capita_expenditure a)
                  (Lorenz.per_capita_expenditure b) = true)
    (sort_values _ Lorenz.per_capita_expenditure
       (household_totals scenario_households scenario_expenses)) ->
  map Lorenz.per_capita_expenditure
    (total_expenditure sort_values scenario_households scenario_expenses)
  = [10; 20; 30]%float /\
  cum_pop (total_expenditure sort_values scenario_households scenario_expenses)
  = [1 / 3; 2 / 3; 1]%float /\
  cum_exp (total_expenditure sort_values scenario_households scenario_expenses)
  = [1 / 6; 1 / 2; 1]%float /\
  nearest_fifty
    (total_expenditure sort_values scenario_households scenario_expenses)
  = Some 1%nat /\
  fifty_percentile_share
    (total_expenditure sort_values scenario_households scenario_expenses)
  = Some 50%float.
Proof.
  intros Hperm Hsorted. unfold total_expenditure.
  rewrite scenario_household_totals in *.
  rewrite (scenario_sorted_unique _ Hperm Hsorted).
  repeat split; vm_compute; reflexivity.
Qed.

Lemma lorenz_scenario_three_households_witness :
  Permutation
    (stable_sort Lorenz.per_capita_expenditure
       (household_totals scenario_households scenario_expenses))
    (household_totals scenario_households scenario_expenses) /\
  StronglySorted
    (fun a b => key_le (Lorenz.per_capita_expenditure a)
                  (Lorenz.per_capita_expenditure b) = true)
    (stable_sort Lorenz.per_capita_expenditure
       (household_totals scenario_households scenario_expenses)) /\
  map Lorenz.per_capita_expenditure
    (total_expenditure (@stable_sort float _)
       scenario_households scenario_expenses)
  = [10; 20; 30]%float /\
  cum_pop (total_expenditure (@stable_sort float _)
             scenario_households scenario_expenses)
  = [1 / 3; 2 / 3; 1]%float /\
  cum_exp (total_expenditure (@stable_sort float _)
             scenario_households scenario_expenses)
  = [1 / 6; 1 / 2; 1]%float /\
  nearest_fifty (total_expenditure (@stable_sort float _)
                   scenario_households scenario_expenses)
  = Some 1%nat /\
  fifty_percentile_share (total_expenditure (@stable_sort float _)
                            scenario_households scenario_expenses)
  = Some 50%float.
Proof.
  assert (Permutation
            (stable_sort Lorenz.per_capita_expenditure
               (household_totals scenario_households scenario_expenses))
            (household_totals scenario_households scenario_expenses)) as Hperm
    by (vm_compute; reflexivity).
  assert (StronglySorted
            (fun a b => key_le (Lorenz.per_capita_expenditure a)
                          (Lorenz.per_capita_expenditure b) = true)
            (stable_sort Lorenz.per_capita_expenditure
               (household_totals scenario_households scenario_expenses)))
    as Hsorted by (vm_compute; repeat constructor).
  split; [exact Hperm|]. split; [exact Hsorted|].
  exact (lorenz_scenario_three_households (@stable_sort float _) Hperm Hsorted).
Defined.

(** C2, the claim as stated fails: on the scenario the script selects the
    second row, whose cumulative population share is 2/3, and reports its
    cumulative expenditure share, 50.0 percent; that is not within 1 of
    83.33. *)
Lemma lorenz_scenario_share_is_not_83 :
  nearest_fifty (total_expenditure (@stable_sort float _)
                   scenario_households scenario_expenses)
  = Some 1%nat /\
  fifty_percentile_share (total_expenditure (@stable_sort float _)
                            scenario_households scenario_expenses)
  = Some 50%float /\
  PrimFloat.ltb (PrimFloat.abs (50 - 8333 / 100)) 1 = false.
Proof. repeat split; vm_compute; reflexivity. Qed.

(** The two distances that decide the selection: in binary64 the second
    cumulative population share is nearer to one half than the first, by one
    rounding. *)
Remark lorenz_scenario_distances :
  distances (total_expenditure (@stable_sort float _)
               scenario_households scenario_expenses)
  = [PrimFloat.abs (1 / 3 - 1 / 2); PrimFloat.abs (2 / 3 - 1 / 2); 1 / 2]%float
  /\
  PrimFloat.ltb (PrimFloat.abs (2 / 3 - 1 / 2)) (PrimFloat.abs (1 / 3 - 1 / 2))
  = true.
Proof. split; vm_compute; reflexivity. Qed.

(** ** Two equal households, in binary64 *)

(** C3, failing input.  Two households of weight 1 and size 1 spend 10
    each: the distribution is perfectly equal, both columns are 1/2, 1, and
    the script reports a Gini coefficient of 0.25. *)
Theorem gini_two_equal_households :
  map Lorenz.per_capita_expenditure
    (total_expenditure (@stable_sort float _)
       [household_f 1 1 1; household_f 2 1 1]
       [expense_f 1 7 10; expense_f 2 7 10])
  = [10; 10]%float /\
  cum_pop (total_expenditure (@stable_sort float _)
             [household_f 1 1 1; household_f 2 1 1]
             [expense_f 1 7 10; expense_f 2 7 10])
  = [1 / 2; 1]%float /\
  cum_exp (total_expenditure (@stable_sort float _)
             [household_f 1 1 1; household_f 2 1 1]
             [expense_f 1 7 10; expense_f 2 7 10])
  = [1 / 2; 1]%float /\
  gini (total_expenditure (@stable_sort float _)
          [household_f 1 1 1; household_f 2 1 1]
          [expense_f 1 7 10; expense_f 2 7 10])
  = (1 / 4)%float.
Proof. repeat split; vm_compute; reflexivity. Qed.

(** A single household gets the Gini coefficient 1. *)
Remark gini_single_household :
  gini (total_expenditure (@stable_sort float _)
          [household_f 1 1 1] [expense_f 1 7 10])
  = 1%float.
Proof. vm_compute. reflexivity. Qed.

(** ** Ten equal households, in binary64 *)

(** Ten shares of 0.1 add up to the number just below 1. *)
Remark cum_pop_last_binary64 :
  last (cum_pop (total_expenditure (@stable_sort float _)
                   (map (fun k => household_f k 1 1) [1; 2; 3; 4; 5; 6; 7; 8; 9; 10]%Z)
                   (map (fun k => expense_f k 7 10) [1; 2; 3; 4; 5; 6; 7; 8; 9; 10]%Z)))
  = Some (PrimFloat.next_down 1).
Proof. vm_compute. reflexivity. Qed.

(** ** Two households of unequal expenditure *)

Definition uneven_households : list (Households.row float) :=
  [household_f 1 1 1; household_f 2 1 1].

Definition uneven_expenses : list (Expenses.row float) :=
  [expense_f 1 7 10; expense_f 2 7 50].

(** The first row is at one half exactly; its cumulative expenditure share
    is 10/60, reported as 16.67. *)
Remark uneven_report :
  distances (total_expenditure (@stable_sort float _)
               uneven_households uneven_expenses)
  = [0; 1 / 2]%float /\
  cum_exp (total_expenditure (@stable_sort float _)
             uneven_households uneven_expenses)
  = [10 / 60; 1]%float /\
  fifty_percentile_share (total_expenditure (@stable_sort float _)
                            uneven_households uneven_expenses)
  = Some (1667 / 100)%float.
Proof. repeat split; vm_compute; reflexivity. Qed.



(** ** The scenario of three households, run as a script *)

Definition scenario_products : list Products.row := [product 7 (CodeInt 1)].


Lemma float_sort_sorts_values : sorts_values (@stable_sort float _).
Proof. exact stable_sort_sorts_values. Defined.

Lemma lorenz_table_households_witness :
  sorts_values (@stable_sort float _) /\
  (1%Z ∈ map Lorenz.hh_id
           (total_expenditure (@stable_sort float _)
              scenario_households scenario_expenses) <->
   Some 1%Z ∈ map Expenses.hh_id scenario_expenses /\
   Some 1%Z ∈ map Households.hh_id scenario_households).
Proof.
  split; [exact float_sort_sorts_values|].
  exact (lorenz_table_households (@stable_sort float _)
           float_sort_sorts_values scenario_households scenario_expenses 1%Z).
Defined.

Lemma scenario_households_distinct :
  NoDup (map Households.hh_id scenario_households).
Proof.
  apply (bool_decide_unpack _). vm_compute. exact I.
Defined.

Lemma lorenz_table_one_row_per_household_witness :
  sorts_values (@stable_sort float _) /\
  NoDup (map Households.hh_id scenario_households) /\
  NoDup (map Lorenz.hh_id
           (total_expenditure (@stable_sort float _)
              scenario_households scenario_expenses)).
Proof.
  split; [exact float_sort_sorts_values|].
  split; [exact scenario_households_distinct|].
  exact (lorenz_table_one_row_per_household (@stable_sort float _)
           float_sort_sorts_values scenario_households scenario_expenses
           scenario_households_distinct).
Defined.

Lemma lorenz_table_rows_witness :
  sorts_values (@stable_sort float _) /\
  (lorenz_row_f 1 10 1 1
     ∈ total_expenditure (@stable_sort float _)
         scenario_households scenario_expenses
   <->
   exists h, h ∈ scenario_households /\
     Households.hh_id h = Some 1%Z /\
     1%float = Households.weight h /\
     1%float = Households.hh_size h /\
     Some 1%Z ∈ map Expenses.hh_id scenario_expenses /\
     10%float = kahan_total (household_expenditures 1 scenario_expenses) /\
     (10 / 1)%float = (10 / 1)%float).
Proof.
  split; [exact float_sort_sorts_values|].
  exact (lorenz_table_rows (@stable_sort float _) float_sort_sorts_values
           scenario_households scenario_expenses (lorenz_row_f 1 10 1 1)).
Defined.

Lemma scenario_distance_number :
  exists d,
    d ∈ distances (total_expenditure (@stable_sort float _)
                     scenario_households scenario_expenses)
    /\ isnan d = false.
Proof.
  exists (1 / 2)%float. split; [|reflexivity].
  assert (distances (total_expenditure (@stable_sort float _)
                       scenario_households scenario_expenses)
          = [PrimFloat.abs (1 / 3 - 1 / 2); PrimFloat.abs (2 / 3 - 1 / 2);
             1 / 2]%float) as -> by (vm_compute; reflexivity).
  apply list_elem_of_further, list_elem_of_further, list_elem_of_here.
Defined.

Lemma no_output_directory : "output"%string ∉ dirs (@empty_world float).
Proof. simpl. apply not_elem_of_empty. Defined.

Lemma lorenz_needs_output_directory_witness :
  (exists d,
     d ∈ distances (total_expenditure (@stable_sort float _)
                      scenario_households scenario_expenses)
     /\ isnan d = false) /\
  ("output"%string ∉ dirs (@empty_world float)) /\
  exists share,
    fifty_percentile_share (total_expenditure (@stable_sort float _)
                              scenario_households scenario_expenses)
    = Some share /\
    compute_lorenz_curve_and_gini (@stable_sort float _)
      scenario_households scenario_expenses empty_world
    = (Raise FileNotFoundError, with_console empty_world [fifty_line share]).
Proof.
  split; [exact scenario_distance_number|].
  split; [exact no_output_directory|].
  exact (lorenz_needs_output_directory (@stable_sort float _)
           scenario_households scenario_expenses empty_world
           scenario_distance_number no_output_directory).
Defined.


(** ** Expenses of an unknown household only *)

Definition stray_expenses : list (Expenses.row float) := [expense_f 9 7 10].

Definition stray_world : world float :=
  {| df_households := scenario_households; df_expenses := stray_expenses;
     df_products := scenario_products;
     console := []; dirs := ∅; files := ∅ |}.

Lemma stray_expenses_unknown :
  forall k : Z, Some k ∈ map Expenses.hh_id stray_expenses ->
                Some k ∉ map Households.hh_id scenario_households.
Proof.
  intros k Hk. simpl in Hk. apply list_elem_of_singleton in Hk.
  injection Hk as ->. simpl. rewrite !elem_of_cons, elem_of_nil.
  intros [?|[?|[?|[]]]]; discriminate.
Defined.

Lemma lorenz_raises_on_empty_table_witness :
  sorts_values (@stable_sort float _) /\
  (forall k : Z, Some k ∈ map Expenses.hh_id stray_expenses ->
                 Some k ∉ map Households.hh_id scenario_households) /\
  compute_lorenz_curve_and_gini (@stable_sort float _)
    scenario_households stray_expenses empty_world
  = (Raise ValueError, empty_world).
Proof.
  split; [exact float_sort_sorts_values|].
  split; [exact stray_expenses_unknown|].
  exact (lorenz_raises_on_empty_table (@stable_sort float _)
           float_sort_sorts_values scenario_households stray_expenses
           empty_world stray_expenses_unknown).
Defined.

Lemma main_raises_on_empty_join_witness :
  sorts_values (@stable_sort float _) /\
  (forall k : Z, Some k ∈ map Expenses.hh_id (df_expenses stray_world) ->
                 Some k ∉ map Households.hh_id (df_households stray_world)) /\
  main (@stable_sort float _) stray_world
    = (Raise ValueError, before_lorenz stray_world) /\
  files (before_lorenz stray_world) !! "output/lorenz_curve.png"%string
    = files stray_world !! "output/lorenz_curve.png"%string.
Proof.
  split; [exact float_sort_sorts_values|].
  split; [exact stray_expenses_unknown|].
  exact (main_raises_on_empty_join (@stable_sort float _)
           float_sort_sorts_values stray_world stray_expenses_unknown).
Defined.

(** ** A household table with a missing and a repeated identifier *)




Lemma repeated_household_covered :
  household_ids_covered [household_f 1 1 1; household_f 1 2 2]
    [expense_f 1 7 10].
Proof.
  intros c Hc. simpl in Hc. exists 1%Z. split.
  - rewrite !elem_of_cons, elem_of_nil in Hc. by destruct Hc as [->|[->|[]]].
  - simpl. apply list_elem_of_here.
Defined.

Lemma confirmation_counts_distinct_households_witness :
  household_ids_covered [household_f 1 1 1; household_f 1 2 2]
    [expense_f 1 7 10] /\
  exists ks : list Z,
    NoDup ks /\
    (forall k, k ∈ ks <->
       Some k ∈ map Households.hh_id [household_f 1 1 1; household_f 1 2 2]) /\
    verdict [household_f 1 1 1; household_f 1 2 2] [expense_f 1 7 10]
    = confirmation (A:=float) (length ks).
Proof.
  split; [exact repeated_household_covered|].
  exact (confirmation_counts_distinct_households
           [household_f 1 1 1; household_f 1 2 2] [expense_f 1 7 10]
           repeated_household_covered).
Defined.

(** ** A survey without any expenditure *)

Definition idle_expenses : list (Expenses.row float) :=
  [expense_f 1 7 0; expense_f 2 7 0].

Definition output_world : world float :=
  {| df_households := []; df_expenses := []; df_products := [];
     console := []; dirs := {[ "output"%string ]}; files := ∅ |}.

(** Every expenditure is 0, which the inputs may be: the one share of the
    category table, the two entries of [cum_exp], the share of the bottom
    half and the Gini coefficient are all NaN. *)
Remark idle_survey_outputs :
  national_share scenario_households idle_expenses scenario_products
  = [("FOOD AND NON-ALCOHOLIC BEVERAGES"%string, PrimFloat.nan)] /\
  cum_exp (total_expenditure (@stable_sort float _)
             scenario_households idle_expenses)
  = [PrimFloat.nan; PrimFloat.nan] /\
  fifty_percentile_share (total_expenditure (@stable_sort float _)
                            scenario_households idle_expenses)
  = Some PrimFloat.nan /\
  gini (total_expenditure (@stable_sort float _)
          scenario_households idle_expenses)
  = PrimFloat.nan.
Proof. repeat split; vm_compute; reflexivity. Qed.

Lemma idle_share_total_zero :
  zero_number
    (series_sum
       (map snd (national_expenditure scenario_households idle_expenses
                   scenario_products))).
Proof. repeat split; vm_compute; reflexivity. Defined.

Lemma idle_lorenz_total_zero :
  zero_number
    (series_sum
       (map (fun r => (Lorenz.annual_expenditure r * Lorenz.weight r)%num)
          (total_expenditure (@stable_sort float _)
             scenario_households idle_expenses))).
Proof. repeat split; vm_compute; reflexivity. Defined.

Lemma zero_total_gives_no_share_witness :
  zero_number
    (series_sum
       (map snd (national_expenditure scenario_households idle_expenses
                   scenario_products))) /\
  zero_number
    (series_sum
       (map (fun r => (Lorenz.annual_expenditure r * Lorenz.weight r)%num)
          (total_expenditure (@stable_sort float _)
             scenario_households idle_expenses))) /\
  ((forall g,
      g ∈ national_share scenario_households idle_expenses scenario_products ->
      non_finite (snd g)) /\
   (forall e p h name,
      e ∈ idle_expenses -> p ∈ scenario_products -> h ∈ scenario_households ->
      Expenses.product_id e = Products.product_id p ->
      Expenses.hh_id e = Households.hh_id h ->
      coicop_category (Products.coicop_survey_1 p) = Some name ->
      exists s,
        (name, s) ∈ national_share scenario_households idle_expenses
                      scenario_products
        /\ non_finite s)) /\
  (length (cum_exp (total_expenditure (@stable_sort float _)
                      scenario_households idle_expenses))
   = length (total_expenditure (@stable_sort float _)
               scenario_households idle_expenses) /\
   Forall non_finite
     (cum_exp (total_expenditure (@stable_sort float _)
                 scenario_households idle_expenses))).
Proof.
  split; [exact idle_share_total_zero|].
  split; [exact idle_lorenz_total_zero|].
  destruct (zero_total_gives_no_share (@stable_sort float _)
              scenario_households idle_expenses scenario_products)
    as [Hshare Hlorenz].
  split; [exact (Hshare idle_share_total_zero)|].
  exact (Hlorenz idle_lorenz_total_zero).
Defined.

Lemma idle_distance_number :
  exists d,
    d ∈ distances (total_expenditure (@stable_sort float _)
                     scenario_households idle_expenses)
    /\ isnan d = false.
Proof.
  exists 0%float. split; [|reflexivity].
  assert (distances (total_expenditure (@stable_sort float _)
                       scenario_households idle_expenses)
          = [0; 1 / 2]%float) as -> by (vm_compute; reflexivity).
  apply list_elem_of_here.
Defined.

Lemma output_world_directory : "output"%string ∈ dirs output_world.
Proof. simpl. by apply elem_of_singleton. Defined.

Lemma lorenz_zero_total_reports_no_number_witness :
  zero_number
    (series_sum
       (map (fun r => (Lorenz.annual_expenditure r * Lorenz.weight r)%num)
          (total_expenditure (@stable_sort float _)
             scenario_households idle_expenses))) /\
  (exists d,
     d ∈ distances (total_expenditure (@stable_sort float _)
                      scenario_households idle_expenses)
     /\ isnan d = false) /\
  "output"%string ∈ dirs output_world /\
  exists share,
    non_finite share /\
    compute_lorenz_curve_and_gini (@stable_sort float _)
      scenario_households idle_expenses output_world
    = (Ok tt,
       after_lorenz (@stable_sort float _) scenario_households idle_expenses
         share output_world).
Proof.
  split; [exact idle_lorenz_total_zero|].
  split; [exact idle_distance_number|].
  split; [exact output_world_directory|].
  exact (lorenz_zero_total_reports_no_number (@stable_sort float _)
           scenario_households idle_expenses output_world
           idle_lorenz_total_zero idle_distance_number output_world_directory).
Defined.

(** ** Six equal households *)








